(** * uart_all_in_one: fixed-layout binary frame codecs

    A shallow embedding of the packet codecs of the repository
    (examples/CyyPacket.c, examples/WeaponPacket.c and the generated
    variants) together with the properties of the framing protocol
    [HEADER][payload][CHECKSUM][FOOTER].

    Bytes are [Byte.byte] (the C type [unsigned char]); a caller-supplied
    buffer is a [list byte] addressed by a [Z] offset; every access is
    bounds-checked in the model, an access outside the buffer being the
    C program's undefined behaviour, and is recorded in a trace. *)

From Stdlib Require Import ZArith Lia.
From Stdlib Require Import Strings.Byte.
From stdpp Require Import base tactics option list list_numbers vector.

Local Open Scope Z_scope.

(** ** Bytes and fixed-width integers *)

(** The value of an [unsigned char] after integer promotion. *)
Definition byte_to_Z (b : byte) : Z := Z.of_N (Byte.to_N b).

(** Conversion to [uint8_t]: reduction modulo 2^8. *)
Definition to_uint8 (z : Z) : byte :=
  match Byte.of_N (Z.to_N (z mod 256)) with
  | Some b => b
  | None => x00
  end.

(** Arithmetic on [uint32_t] wraps modulo 2^32. *)
Definition uint32_add (a b : Z) : Z := (a + b) mod 2 ^ 32.

(** Object representations. The codecs only ever [memcpy] their fields, so a
    [float] and an [int32_t] are modelled by their object representation:
    [sizeof(float) = sizeof(int32_t) = 4] bytes in the byte order of the
    platform. *)
Definition sizeof_float : nat := 4.
Definition sizeof_int32_t : nat := 4.

(** ** Buffers, accesses and the memory monad *)

Abbreviation buffer := (list byte).

Inductive access : Type :=
  | Rd (off : Z)
  | Wr (off : Z).

Definition offset_of (a : access) : Z :=
  match a with Rd i => i | Wr i => i end.

(** A computation over one buffer: the accesses it attempted, in order, and
    either its value with the final buffer, or [None] when an access fell
    outside the buffer. *)
Definition M (A : Type) : Type := buffer → list access * option (A * buffer).

Definition trace_of {A} (r : list access * option (A * buffer)) : list access := r.1.
Definition value_of {A} (r : list access * option (A * buffer)) : option A := fst <$> r.2.
Definition buffer_of {A} (r : list access * option (A * buffer)) : option buffer := snd <$> r.2.

#[export] Instance M_ret : MRet M := λ A (a : A) (m : buffer), ([], Some (a, m)).

#[export] Instance M_bind : MBind M := λ A B (f : A → M B) (c : M A) (m : buffer),
  match c m with
  | (t1, None) => (t1, None)
  | (t1, Some (a, m1)) =>
      match f a m1 with
      | (t2, r) => (t1 ++ t2, r)
      end
  end.

(** [buf[i]] as an rvalue. *)
Definition load (i : Z) : M byte := λ m,
  ([Rd i],
   if 0 <=? i then
     match m !! Z.to_nat i with
     | Some b => Some (b, m)
     | None => None
     end
   else None).

(** [buf[i] = b]. *)
Definition store (i : Z) (b : byte) : M unit := λ m,
  ([Wr i],
   if 0 <=? i then
     match m !! Z.to_nat i with
     | Some _ => Some (tt, <[Z.to_nat i := b]> m)
     | None => None
     end
   else None).

(** [memcpy(buf + dst, src, n)] for an object [src] of [n] bytes. *)
Fixpoint memcpy_to {n : nat} (dst : Z) (src : vec byte n) : M unit :=
  match src with
  | vnil => mret tt
  | vcons b src' => store dst b ;; memcpy_to (dst + 1) src'
  end.

(** [memcpy(&obj, buf + src, n)]: the new object representation of [obj]. *)
Fixpoint memcpy_from (n : nat) (src : Z) : M (vec byte n) :=
  match n with
  | O => mret [#]
  | S k => b ← load src; bs ← memcpy_from k (src + 1); mret (b ::: bs)
  end.

(** ** examples/CyyPacket.c *)

Module CyyPacket.

Definition PACKET_SIZE : Z := 12.
Definition PACKET_HEADER : byte := xaa.
Definition PACKET_FOOTER : byte := x55.
Definition PACKET_TOTAL_SIZE : Z := PACKET_SIZE + 3.

(** The body of [for (int i = 0; i < len; ++i) s += buf[i];], with [n]
    iterations left. *)
Fixpoint send_Verify_loop (buf : Z) (n : nat) (i : Z) (s : Z) : M Z :=
  match n with
  | O => mret s
  | S k => b ← load (buf + i); send_Verify_loop buf k (i + 1) (uint32_add s (byte_to_Z b))
  end.

Definition send_Verify (buf : Z) (len : Z) : M byte :=
  s ← send_Verify_loop buf (Z.to_nat len) 0 0;
  mret (to_uint8 (Z.land s 0xFF)).

Record CyyPacket : Type := mkCyyPacket {
  my : vec byte sizeof_float;
  name : vec byte sizeof_int32_t;
  target : vec byte sizeof_float;
}.

Definition encode (in_ : CyyPacket) : M unit :=
  let p := 0 in
  store p PACKET_HEADER ;; let p := p + 1 in
  memcpy_to p (my in_) ;; let p := p + Z.of_nat sizeof_float in
  memcpy_to p (name in_) ;; let p := p + Z.of_nat sizeof_int32_t in
  memcpy_to p (target in_) ;; let p := p + Z.of_nat sizeof_float in
  checksum ← send_Verify (0 + 1) PACKET_SIZE;
  store p checksum ;; let p := p + 1 in
  store p PACKET_FOOTER.

Definition recive_Verify (len : Z) : M Z :=
  if negb (len =? PACKET_TOTAL_SIZE) then mret 0 else
  b ← load 0;
  if negb (byte_to_Z b =? byte_to_Z PACKET_HEADER) then mret 0 else
  b ← load (len - 1);
  if negb (byte_to_Z b =? byte_to_Z PACKET_FOOTER) then mret 0 else
  expect ← load (1 + PACKET_SIZE);
  c ← send_Verify (0 + 1) PACKET_SIZE;
  mret (if byte_to_Z c =? byte_to_Z expect then 1 else 0).

Definition decode (out : CyyPacket) : M CyyPacket :=
  let p := 0 + 1 in
  v ← memcpy_from sizeof_float p;
  let out := mkCyyPacket v (name out) (target out) in
  let p := p + Z.of_nat sizeof_float in
  v ← memcpy_from sizeof_int32_t p;
  let out := mkCyyPacket (my out) v (target out) in
  let p := p + Z.of_nat sizeof_int32_t in
  v ← memcpy_from sizeof_float p;
  let out := mkCyyPacket (my out) (name out) v in
  mret out.

End CyyPacket.

(** ** generated/CyyPacket_header_send.c *)

Module CyyPacket_header_send.

Definition PACKET_SIZE : Z := 12.
Definition PACKET_HEADER : byte := xaa.
Definition PACKET_FOOTER : byte := x55.

Fixpoint send_Verify_loop (buf : Z) (n : nat) (i : Z) (s : Z) : M Z :=
  match n with
  | O => mret s
  | S k => b ← load (buf + i); send_Verify_loop buf k (i + 1) (uint32_add s (byte_to_Z b))
  end.

Definition send_Verify (buf : Z) (len : Z) : M byte :=
  s ← send_Verify_loop buf (Z.to_nat len) 0 0;
  mret (to_uint8 (Z.land s 0xFF)).

Record CyyPacket_header : Type := mkCyyPacket_header {
  my : vec byte sizeof_float;
  name : vec byte sizeof_int32_t;
  target : vec byte sizeof_float;
}.

Definition encode (in_ : CyyPacket_header) : M unit :=
  let p := 0 in
  store p PACKET_HEADER ;; let p := p + 1 in
  memcpy_to p (my in_) ;; let p := p + Z.of_nat sizeof_float in
  memcpy_to p (name in_) ;; let p := p + Z.of_nat sizeof_int32_t in
  memcpy_to p (target in_) ;; let p := p + Z.of_nat sizeof_float in
  checksum ← send_Verify (0 + 1) PACKET_SIZE;
  store p checksum ;; let p := p + 1 in
  store p PACKET_FOOTER.

End CyyPacket_header_send.

(** ** generated/Cyy_Packet_header_send.cpp *)

Module Cyy_Packet_header_send.

Definition PACKET_SIZE : Z := 12.
Definition PACKET_HEADER : byte := xaa.
Definition PACKET_FOOTER : byte := x55.

Fixpoint send_Verify_loop (buf : Z) (n : nat) (i : Z) (s : Z) : M Z :=
  match n with
  | O => mret s
  | S k => b ← load (buf + i); send_Verify_loop buf k (i + 1) (uint32_add s (byte_to_Z b))
  end.

Definition send_Verify (buf : Z) (len : Z) : M byte :=
  s ← send_Verify_loop buf (Z.to_nat len) 0 0;
  mret (to_uint8 (Z.land s 0xFF)).

Record Cyy_Packet_header : Type := mkCyy_Packet_header {
  my : vec byte sizeof_float;
  name : vec byte sizeof_int32_t;
  target : vec byte sizeof_float;
}.

Definition encode (in_ : Cyy_Packet_header) : M unit :=
  let p := 0 in
  store p PACKET_HEADER ;; let p := p + 1 in
  memcpy_to p (my in_) ;; let p := p + Z.of_nat sizeof_float in
  memcpy_to p (name in_) ;; let p := p + Z.of_nat sizeof_int32_t in
  memcpy_to p (target in_) ;; let p := p + Z.of_nat sizeof_float in
  checksum ← send_Verify (0 + 1) PACKET_SIZE;
  store p checksum ;; let p := p + 1 in
  store p PACKET_FOOTER.

Definition recive_Verify (len : Z) : M Z :=
  if negb (len =? PACKET_SIZE + 3) then mret 0 else
  b ← load 0;
  if negb (byte_to_Z b =? byte_to_Z PACKET_HEADER) then mret 0 else
  b ← load (len - 1);
  if negb (byte_to_Z b =? byte_to_Z PACKET_FOOTER) then mret 0 else
  expect ← load (1 + PACKET_SIZE);
  c ← send_Verify (0 + 1) PACKET_SIZE;
  mret (if byte_to_Z c =? byte_to_Z expect then 1 else 0).

Definition decode (out : Cyy_Packet_header) : M Cyy_Packet_header :=
  let p := 0 + 1 in
  v ← memcpy_from sizeof_float p;
  let out := mkCyy_Packet_header v (name out) (target out) in
  let p := p + Z.of_nat sizeof_float in
  v ← memcpy_from sizeof_int32_t p;
  let out := mkCyy_Packet_header (my out) v (target out) in
  let p := p + Z.of_nat sizeof_int32_t in
  v ← memcpy_from sizeof_float p;
  let out := mkCyy_Packet_header (my out) (name out) v in
  mret out.

End Cyy_Packet_header_send.

(** ** generated/Dart_aim_Packet_recv.c *)

Module Dart_aim_Packet_recv.

Definition PACKET_SIZE : Z := 16.
Definition PACKET_HEADER : byte := xaa.
Definition PACKET_FOOTER : byte := x55.

Fixpoint send_Verify_loop (buf : Z) (n : nat) (i : Z) (s : Z) : M Z :=
  match n with
  | O => mret s
  | S k => b ← load (buf + i); send_Verify_loop buf k (i + 1) (uint32_add s (byte_to_Z b))
  end.

Definition send_Verify (buf : Z) (len : Z) : M byte :=
  s ← send_Verify_loop buf (Z.to_nat len) 0 0;
  mret (to_uint8 (Z.land s 0xFF)).

Definition recive_Verify (len : Z) : M Z :=
  if negb (len =? PACKET_SIZE + 3) then mret 0 else
  b ← load 0;
  if negb (byte_to_Z b =? byte_to_Z PACKET_HEADER) then mret 0 else
  b ← load (len - 1);
  if negb (byte_to_Z b =? byte_to_Z PACKET_FOOTER) then mret 0 else
  expect ← load (1 + PACKET_SIZE);
  c ← send_Verify (0 + 1) PACKET_SIZE;
  mret (if byte_to_Z c =? byte_to_Z expect then 1 else 0).

Record Dart_aim_Packet : Type := mkDart_aim_Packet {
  err_of_pix : vec byte sizeof_float;
  keep_1 : vec byte sizeof_float;
  keep_2 : vec byte sizeof_float;
  keep_3 : vec byte sizeof_float;
}.

Definition decode (out : Dart_aim_Packet) : M Dart_aim_Packet :=
  let p := 0 + 1 in
  v ← memcpy_from sizeof_float p;
  let out := mkDart_aim_Packet v (keep_1 out) (keep_2 out) (keep_3 out) in
  let p := p + Z.of_nat sizeof_float in
  v ← memcpy_from sizeof_float p;
  let out := mkDart_aim_Packet (err_of_pix out) v (keep_2 out) (keep_3 out) in
  let p := p + Z.of_nat sizeof_float in
  v ← memcpy_from sizeof_float p;
  let out := mkDart_aim_Packet (err_of_pix out) (keep_1 out) v (keep_3 out) in
  let p := p + Z.of_nat sizeof_float in
  v ← memcpy_from sizeof_float p;
  let out := mkDart_aim_Packet (err_of_pix out) (keep_1 out) (keep_2 out) v in
  mret out.

Definition encode (in_ : Dart_aim_Packet) : M unit :=
  let p := 0 in
  store p PACKET_HEADER ;; let p := p + 1 in
  memcpy_to p (err_of_pix in_) ;; let p := p + Z.of_nat sizeof_float in
  memcpy_to p (keep_1 in_) ;; let p := p + Z.of_nat sizeof_float in
  memcpy_to p (keep_2 in_) ;; let p := p + Z.of_nat sizeof_float in
  memcpy_to p (keep_3 in_) ;; let p := p + Z.of_nat sizeof_float in
  checksum ← send_Verify (0 + 1) PACKET_SIZE;
  store p checksum ;; let p := p + 1 in
  store p PACKET_FOOTER.

End Dart_aim_Packet_recv.

(** ** examples/WeaponPacket.c *)

Module WeaponPacket.

Definition PACKET_SIZE : Z := 20.

Record WeaponPacket : Type := mkWeaponPacket {
  aim : vec byte 16;
  fire : vec byte sizeof_int32_t;
}.

Definition encode (in_ : WeaponPacket) : M unit :=
  let p := 0 in
  memcpy_to p (aim in_) ;; let p := p + 16 in
  memcpy_to p (fire in_).

Definition decode (out : WeaponPacket) : M WeaponPacket :=
  let p := 0 in
  v ← memcpy_from 16 p;
  let out := mkWeaponPacket v (fire out) in
  let p := p + 16 in
  v ← memcpy_from sizeof_int32_t p;
  let out := mkWeaponPacket (aim out) v in
  mret out.

End WeaponPacket.

(** ** The framing protocol in the words of the specification *)

(** The unsigned arithmetic sum of a byte sequence, without any bound. *)
Definition byte_sum (bs : list byte) : Z := foldr (λ b acc, byte_to_Z b + acc) 0 bs.

(** Checksum: the low 8 bits of the unsigned sum of the bytes. *)
Definition checksum (bs : list byte) : byte := to_uint8 (byte_sum bs).

(** The payload region of a frame with payload length [P], and the byte
    transmitted after it. *)
Definition payload_region (P : nat) (bytes : list byte) : list byte := take P (drop 1 bytes).
Definition transmitted_checksum (P : nat) (bytes : list byte) : option byte := bytes !! S P.

Inductive FrameError : Type :=
  | LengthMismatch
  | BadHeader
  | BadFooter
  | ChecksumMismatch.

#[export] Instance byte_eq_dec : EqDecision byte := Byte.byte_eq_dec.

(** The validation order of the specification: the first failing check of
    length, header, footer and checksum, or [None] for a valid frame. *)
Definition spec_validate (P : nat) (HEADER FOOTER : byte) (bytes : list byte) : option FrameError :=
  if negb (length bytes =? P + 3)%nat then Some LengthMismatch
  else if negb (bool_decide (head bytes = Some HEADER)) then Some BadHeader
  else if negb (bool_decide (last bytes = Some FOOTER)) then Some BadFooter
  else if negb (bool_decide (transmitted_checksum P bytes = Some (checksum (payload_region P bytes))))
       then Some ChecksumMismatch
  else None.

(** The frame layout of the specification:
    [HEADER][payload][CHECKSUM][FOOTER]. *)
Definition spec_frame (HEADER FOOTER : byte) (payload : list byte) : list byte :=
  HEADER :: payload ++ [checksum payload; FOOTER].

(** The reads [recive_Verify] has made when it returns with a given verdict:
    nothing on a length mismatch, the header byte on a bad header, header and
    footer on a bad footer, and otherwise the checksum byte and the payload
    region as well. *)
Definition reads_until (P : nat) (verdict : option FrameError) : list access :=
  match verdict with
  | Some LengthMismatch => []
  | Some BadHeader => [Rd 0]
  | Some BadFooter => [Rd 0; Rd (Z.of_nat P + 2)]
  | Some ChecksumMismatch | None =>
      [Rd 0; Rd (Z.of_nat P + 2); Rd (Z.of_nat P + 1)] ++ (Rd <$> seqZ 1 (Z.of_nat P))
  end.

(** The value [recive_Verify] returns: non-zero exactly for a valid frame. *)
Definition verdict_value (verdict : option FrameError) : Z :=
  match verdict with
  | None => 1
  | Some _ => 0
  end.

(** Payload bytes of the packets, in declaration order. *)
Definition CyyPacket_bytes (v : CyyPacket.CyyPacket) : list byte :=
  vec_to_list (CyyPacket.my v) ++ vec_to_list (CyyPacket.name v) ++ vec_to_list (CyyPacket.target v).

Definition WeaponPacket_bytes (v : WeaponPacket.WeaponPacket) : list byte :=
  vec_to_list (WeaponPacket.aim v) ++ vec_to_list (WeaponPacket.fire v).

(** ** Concrete packets and frames *)

(** A concrete payload: [my = 1.5f], [name = 42], [target = -3.25f] in the
    object representation of a little-endian IEEE-754 platform. *)
Definition example_packet : CyyPacket.CyyPacket :=
  CyyPacket.mkCyyPacket [# x00; x00; xc0; x3f] [# x2a; x00; x00; x00] [# x00; x00; x50; xc0].

Definition zero_packet : CyyPacket.CyyPacket :=
  CyyPacket.mkCyyPacket [# x00; x00; x00; x00] [# x00; x00; x00; x00] [# x00; x00; x00; x00].

Definition example_frame : buffer :=
  [xaa; x00; x00; xc0; x3f; x2a; x00; x00; x00; x00; x00; x50; xc0; x39; x55].

(** The example frame with its first payload byte corrupted in transit. *)
Definition corrupted_frame : buffer := <[1%nat := xff]> example_frame.

Definition example_weapon : WeaponPacket.WeaponPacket :=
  WeaponPacket.mkWeaponPacket
    [# x01; x02; x03; x04; x05; x06; x07; x08; x09; x0a; x0b; x0c; x0d; x0e; x0f; x10]
    [# x01; x00; x00; x00].

Definition zero_weapon : WeaponPacket.WeaponPacket :=
  WeaponPacket.mkWeaponPacket
    [# x00; x00; x00; x00; x00; x00; x00; x00; x00; x00; x00; x00; x00; x00; x00; x00]
    [# x00; x00; x00; x00].

Definition Dart_aim_Packet_bytes (v : Dart_aim_Packet_recv.Dart_aim_Packet) : list byte :=
  vec_to_list (Dart_aim_Packet_recv.err_of_pix v) ++ vec_to_list (Dart_aim_Packet_recv.keep_1 v)
    ++ vec_to_list (Dart_aim_Packet_recv.keep_2 v) ++ vec_to_list (Dart_aim_Packet_recv.keep_3 v).

Definition Cyy_Packet_header_bytes (v : Cyy_Packet_header_send.Cyy_Packet_header) : list byte :=
  vec_to_list (Cyy_Packet_header_send.my v) ++ vec_to_list (Cyy_Packet_header_send.name v)
    ++ vec_to_list (Cyy_Packet_header_send.target v).

Definition example_dart : Dart_aim_Packet_recv.Dart_aim_Packet :=
  Dart_aim_Packet_recv.mkDart_aim_Packet
    [# x00; x00; xc0; x3f] [# x00; x00; x00; x00] [# x00; x00; x80; x3f] [# x00; x00; x50; xc0].

Definition zero_dart : Dart_aim_Packet_recv.Dart_aim_Packet :=
  Dart_aim_Packet_recv.mkDart_aim_Packet
    [# x00; x00; x00; x00] [# x00; x00; x00; x00] [# x00; x00; x00; x00] [# x00; x00; x00; x00].

Definition example_cpp_packet : Cyy_Packet_header_send.Cyy_Packet_header :=
  Cyy_Packet_header_send.mkCyy_Packet_header
    [# x00; x00; xc0; x3f] [# x2a; x00; x00; x00] [# x00; x00; x50; xc0].

Definition zero_cpp_packet : Cyy_Packet_header_send.Cyy_Packet_header :=
  Cyy_Packet_header_send.mkCyy_Packet_header
    [# x00; x00; x00; x00] [# x00; x00; x00; x00] [# x00; x00; x00; x00].

(** * Properties *)

(** ** Bytes *)

Lemma byte_to_Z_range (b : byte) : 0 ≤ byte_to_Z b < 256.
Proof.
  unfold byte_to_Z. pose proof (Byte.to_N_bounded b). lia.
Qed.

Lemma byte_to_Z_inj (a b : byte) : byte_to_Z a = byte_to_Z b → a = b.
Proof.
  unfold byte_to_Z. intros H. apply N2Z.inj in H.
  pose proof (Byte.of_to_N a) as Ha. rewrite H, Byte.of_to_N in Ha. congruence.
Qed.

Lemma to_uint8_value (z : Z) : byte_to_Z (to_uint8 z) = z mod 256.
Proof.
  unfold to_uint8, byte_to_Z.
  pose proof (Z.mod_pos_bound z 256 ltac:(lia)) as Hr.
  destruct (Byte.of_N (Z.to_N (z mod 256))) as [b|] eqn:E.
  - apply Byte.to_of_N in E. rewrite E. lia.
  - apply Byte.of_N_None_iff in E. lia.
Qed.

Lemma to_uint8_byte_to_Z (b : byte) : to_uint8 (byte_to_Z b) = b.
Proof.
  apply byte_to_Z_inj. rewrite to_uint8_value.
  apply Z.mod_small, byte_to_Z_range.
Qed.

Lemma to_uint8_mod (z : Z) : to_uint8 (z mod 256) = to_uint8 z.
Proof.
  apply byte_to_Z_inj. rewrite !to_uint8_value. apply Z.mod_mod. lia.
Qed.

Lemma byte_eqb_decide (a b : byte) :
  (byte_to_Z a =? byte_to_Z b) = bool_decide (a = b).
Proof.
  case_bool_decide as E.
  - subst. apply Z.eqb_refl.
  - apply Z.eqb_neq. intros H. apply E, byte_to_Z_inj, H.
Qed.

Lemma land_255 (z : Z) : Z.land z 0xFF = z mod 256.
Proof. change 0xFF with (Z.ones 8). rewrite Z.land_ones by lia. reflexivity. Qed.

(** Wrap-around of the 32-bit accumulator is invisible in the low 8 bits. *)
Lemma uint32_add_low8 (s z : Z) : uint32_add s z mod 256 = (s + z) mod 256.
Proof.
  unfold uint32_add. apply Z.mod_mod_divide.
  exists 16777216. reflexivity.
Qed.

Lemma fold_uint32_add_low8 (zs : list Z) (s : Z) :
  fold_left uint32_add zs s mod 256 = (s + foldr Z.add 0 zs) mod 256.
Proof.
  revert s. induction zs as [|z zs IH]; intros s; simpl.
  - f_equal. lia.
  - rewrite IH.
    rewrite <- Z.add_mod_idemp_l, uint32_add_low8, Z.add_mod_idemp_l by lia.
    f_equal. lia.
Qed.

Lemma byte_sum_fmap (bs : list byte) : foldr Z.add 0 (byte_to_Z <$> bs) = byte_sum bs.
Proof.
  induction bs as [|b bs IH]; [reflexivity|].
  rewrite fmap_cons. cbn [foldr byte_sum]. rewrite IH. reflexivity.
Qed.


(** ** The memory monad *)

Lemma bind_unfold {A B} (c : M A) (f : A → M B) (m : buffer) :
  (c ≫= f) m =
    match c m with
    | (t1, None) => (t1, None)
    | (t1, Some (a, m1)) => match f a m1 with (t2, r) => (t1 ++ t2, r) end
    end.
Proof. reflexivity. Qed.

Lemma bind_ok {A B} (c : M A) (f : A → M B) (m m1 : buffer) (t1 : list access) (a : A) :
  c m = (t1, Some (a, m1)) →
  (c ≫= f) m = (t1 ++ (f a m1).1, (f a m1).2).
Proof. intros E. rewrite bind_unfold, E. destruct (f a m1); reflexivity. Qed.

Lemma load_ok (i : Z) (m : buffer) (b : byte) :
  0 ≤ i → m !! Z.to_nat i = Some b → load i m = ([Rd i], Some (b, m)).
Proof.
  intros Hi E. unfold load. rewrite E.
  destruct (Z.leb_spec 0 i); [reflexivity | lia].
Qed.

Lemma load_trace (i : Z) (m : buffer) : (load i m).1 = [Rd i].
Proof. reflexivity. Qed.

(** A predicate on accesses that holds of every access of [c] and of every
    continuation holds of every access of the sequence. *)
Lemma bind_trace_Forall {A B} (P : access → Prop) (c : M A) (f : A → M B) (m : buffer) :
  Forall P (c m).1 →
  (∀ a m1, Forall P (f a m1).1) →
  Forall P ((c ≫= f) m).1.
Proof.
  intros Hc Hf. rewrite bind_unfold.
  destruct (c m) as [t1 [[a m1]|]]; [|exact Hc].
  specialize (Hf a m1). destruct (f a m1) as [t2 r]. simpl in *.
  apply Forall_app. split; assumption.
Qed.

Lemma memcpy_from_trace (n : nat) : ∀ (src : Z) (m : buffer),
  Forall (λ a, src ≤ offset_of a < src + Z.of_nat n) (memcpy_from n src m).1.
Proof.
  induction n as [|k IH]; intros src m.
  - constructor.
  - cbn [memcpy_from]. apply bind_trace_Forall.
    + rewrite load_trace. repeat constructor; simpl; lia.
    + intros b m1. apply bind_trace_Forall.
      * eapply Forall_impl; [apply IH|]. simpl. intros a Ha. lia.
      * intros bs m2. constructor.
Qed.

(** ** The checksum loop *)

Lemma send_Verify_loop_ok (n : nat) : ∀ (buf i s : Z) (m : buffer),
  0 ≤ buf + i →
  (Z.to_nat (buf + i) + n ≤ length m)%nat →
  CyyPacket.send_Verify_loop buf n i s m =
    (Rd <$> seqZ (buf + i) (Z.of_nat n),
     Some (fold_left uint32_add (byte_to_Z <$> take n (drop (Z.to_nat (buf + i)) m)) s, m)).
Proof.
  induction n as [|k IH]; intros buf i s m Hpos Hlen.
  - reflexivity.
  - destruct (lookup_lt_is_Some_2 m (Z.to_nat (buf + i))) as [b Hb]; [lia|].
    cbn [CyyPacket.send_Verify_loop].
    rewrite (bind_ok _ _ _ _ _ _ (load_ok _ _ _ Hpos Hb)).
    rewrite IH by lia.
    rewrite (drop_S _ _ _ Hb).
    replace (Z.to_nat (buf + (i + 1))) with (S (Z.to_nat (buf + i))) by lia.
    rewrite (seqZ_cons (buf + i)) by lia.
    replace (Z.succ (buf + i)) with (buf + (i + 1)) by lia.
    replace (Z.pred (Z.of_nat (S k))) with (Z.of_nat k) by lia.
    reflexivity.
Qed.

(** [send_Verify(buf + base, len)] on a buffer that holds the region. *)
Lemma send_Verify_ok (base len : Z) (m : buffer) :
  0 ≤ base →
  (Z.to_nat base + Z.to_nat len ≤ length m)%nat →
  CyyPacket.send_Verify base len m =
    (Rd <$> seqZ base len,
     Some (checksum (take (Z.to_nat len) (drop (Z.to_nat base) m)), m)).
Proof.
  intros Hb Hl. unfold CyyPacket.send_Verify.
  erewrite bind_ok by (apply send_Verify_loop_ok; rewrite ?Z.add_0_r; lia).
  rewrite Z.add_0_r. cbn. rewrite app_nil_r. f_equal.
  - f_equal. destruct (Z.le_gt_cases 0 len).
    + f_equal. lia.
    + replace (Z.to_nat len) with O by lia.
      rewrite !seqZ_nil by lia. reflexivity.
  - do 2 f_equal. unfold checksum.
    apply byte_to_Z_inj. rewrite !to_uint8_value, land_255, Z.mod_mod by lia.
    rewrite fold_uint32_add_low8, byte_sum_fmap. reflexivity.
Qed.

(** ** examples/CyyPacket.c: encode *)

Local Arguments CyyPacket.send_Verify : simpl never.
Local Arguments checksum : simpl never.
Local Arguments to_uint8 : simpl never.
Local Arguments byte_to_Z : simpl never.

Lemma encode_ok (v : CyyPacket.CyyPacket) (out : buffer) :
  (15 ≤ length out)%nat →
  CyyPacket.encode v out =
    ((Wr <$> seqZ 0 13) ++ (Rd <$> seqZ 1 12) ++ [Wr 13; Wr 14],
     Some (tt, spec_frame CyyPacket.PACKET_HEADER CyyPacket.PACKET_FOOTER (CyyPacket_bytes v)
                 ++ drop 15 out)).
Proof.
  intros Hlen. destruct v as [a b c].
  inv_vec a; intros a0 a1 a2 a3. inv_vec b; intros b0 b1 b2 b3. inv_vec c; intros c0 c1 c2 c3.
  do 15 (destruct out as [|? out]; [simpl in Hlen; lia|]).
  lazy -[CyyPacket.send_Verify checksum to_uint8 byte_to_Z].
  rewrite send_Verify_ok by (cbn [length]; lia).
  reflexivity.
Qed.

(** ** recive_Verify in closed form *)

Lemma bool_decide_Some (a b : byte) : bool_decide (Some a = Some b) = bool_decide (a = b).
Proof. apply bool_decide_ext. split; congruence. Qed.

(** One bounds-checked read of a cell that exists. *)
Ltac step_load :=
  erewrite bind_ok by (apply load_ok; [apply Z.leb_le; reflexivity | reflexivity]); cbn beta.

(** The comparison [a != b] of two bytes, by cases. *)
Ltac byte_cases :=
  rewrite byte_eqb_decide; case_bool_decide; cbn [negb].

Lemma recive_Verify_closed (buf : buffer) :
  CyyPacket.recive_Verify (Z.of_nat (length buf)) buf =
    (reads_until 12 (spec_validate 12 CyyPacket.PACKET_HEADER CyyPacket.PACKET_FOOTER buf),
     Some (verdict_value (spec_validate 12 CyyPacket.PACKET_HEADER CyyPacket.PACKET_FOOTER buf),
           buf)).
Proof.
  unfold CyyPacket.recive_Verify, spec_validate.
  destruct (decide (length buf = 15%nat)) as [E|E].
  - do 15 (destruct buf as [|? buf]; [discriminate E|]).
    destruct buf; [clear E|discriminate E].
    cbn [length head last transmitted_checksum payload_region take drop lookup list_lookup].
    rewrite !bool_decide_Some.
    change (Z.of_nat 15 =? CyyPacket.PACKET_TOTAL_SIZE) with true.
    change (15 =? 12 + 3)%nat with true. cbn [negb].
    step_load. byte_cases; [|reflexivity].
    step_load. byte_cases; [|reflexivity].
    step_load.
    erewrite bind_ok
      by (apply send_Verify_ok; unfold CyyPacket.PACKET_SIZE; cbn [length]; lia).
    cbn [fst snd].
    change (take _ (drop _ _)) with [b0; b1; b2; b3; b4; b5; b6; b7; b8; b9; b10; b11].
    rewrite byte_eqb_decide, (bool_decide_ext _ _ (symmetry_iff (=) _ _)).
    case_bool_decide; reflexivity.
  - destruct (Z.eqb_spec (Z.of_nat (length buf)) CyyPacket.PACKET_TOTAL_SIZE) as [E'|E'].
    { exfalso. unfold CyyPacket.PACKET_TOTAL_SIZE, CyyPacket.PACKET_SIZE in E'. lia. }
    destruct (Nat.eqb_spec (length buf) (12 + 3)) as [E''|E'']; [lia|].
    reflexivity.
Qed.

Lemma Dart_recive_Verify_closed (buf : buffer) :
  Dart_aim_Packet_recv.recive_Verify (Z.of_nat (length buf)) buf =
    (reads_until 16
       (spec_validate 16 Dart_aim_Packet_recv.PACKET_HEADER Dart_aim_Packet_recv.PACKET_FOOTER buf),
     Some (verdict_value
             (spec_validate 16 Dart_aim_Packet_recv.PACKET_HEADER
                Dart_aim_Packet_recv.PACKET_FOOTER buf),
           buf)).
Proof.
  unfold Dart_aim_Packet_recv.recive_Verify, spec_validate.
  change Dart_aim_Packet_recv.send_Verify with CyyPacket.send_Verify.
  destruct (decide (length buf = 19%nat)) as [E|E].
  - do 19 (destruct buf as [|? buf]; [discriminate E|]).
    destruct buf; [clear E|discriminate E].
    cbn [length head last transmitted_checksum payload_region take drop lookup list_lookup].
    rewrite !bool_decide_Some.
    change (Z.of_nat 19 =? Dart_aim_Packet_recv.PACKET_SIZE + 3) with true.
    change (19 =? 16 + 3)%nat with true. cbn [negb].
    step_load. byte_cases; [|reflexivity].
    step_load. byte_cases; [|reflexivity].
    step_load.
    erewrite bind_ok
      by (apply send_Verify_ok; unfold Dart_aim_Packet_recv.PACKET_SIZE; cbn [length]; lia).
    cbn [fst snd].
    change (take _ (drop _ _))
      with [b0; b1; b2; b3; b4; b5; b6; b7; b8; b9; b10; b11; b12; b13; b14; b15].
    rewrite byte_eqb_decide, (bool_decide_ext _ _ (symmetry_iff (=) _ _)).
    case_bool_decide; reflexivity.
  - destruct (Z.eqb_spec (Z.of_nat (length buf)) (Dart_aim_Packet_recv.PACKET_SIZE + 3))
      as [E'|E'].
    { exfalso. unfold Dart_aim_Packet_recv.PACKET_SIZE in E'. lia. }
    destruct (Nat.eqb_spec (length buf) (16 + 3)) as [E''|E'']; [lia|].
    reflexivity.
Qed.

(** ** The checksum function *)

(** C3. [send_Verify] is total on every byte sequence, the empty one
    included: it reads each byte once, never faults, leaves the buffer as it
    was, and returns the low 8 bits of the unbounded arithmetic sum of the
    bytes, so the wrap-around of the 32-bit accumulator never shows in the
    result. *)
Theorem send_Verify_low8_of_sum (bs : list byte) :
  CyyPacket.send_Verify 0 (Z.of_nat (length bs)) bs =
    (Rd <$> seqZ 0 (Z.of_nat (length bs)), Some (to_uint8 (byte_sum bs), bs))
  ∧ byte_to_Z (to_uint8 (byte_sum bs)) = Z.land (byte_sum bs) 0xFF
  ∧ byte_to_Z (to_uint8 (byte_sum bs)) = byte_sum bs mod 2 ^ 8
  ∧ CyyPacket.send_Verify 0 0 [] = ([], Some (x00, [])).
Proof.
  split; [|split; [|split]].
  - rewrite send_Verify_ok by lia.
    rewrite Nat2Z.id, drop_0, firstn_all. reflexivity.
  - rewrite to_uint8_value, land_255. reflexivity.
  - apply to_uint8_value.
  - reflexivity.
Qed.

(** ** Encoding *)

(** C4. On any output buffer of at least 15 bytes, [encode] cannot fail: it
    writes exactly the [PACKET_SIZE + 3 = 15] bytes at offsets 0..14, which
    are the header 0xAA, the object representations of [my], [name] and
    [target] in that order without padding, the checksum of these 12 payload
    bytes, and the footer 0x55; bytes after offset 14 are left alone. *)
Theorem encode_frame_layout (v : CyyPacket.CyyPacket) (out : buffer) :
  (15 ≤ length out)%nat →
  let payload :=
    vec_to_list (CyyPacket.my v) ++ vec_to_list (CyyPacket.name v)
      ++ vec_to_list (CyyPacket.target v) in
  let frame := [xaa] ++ payload ++ [to_uint8 (byte_sum payload)] ++ [x55] in
  buffer_of (CyyPacket.encode v out) = Some (frame ++ drop 15 out)
  ∧ Z.of_nat (length frame) = CyyPacket.PACKET_TOTAL_SIZE
  ∧ Z.of_nat (length payload) = CyyPacket.PACKET_SIZE
  ∧ CyyPacket.PACKET_TOTAL_SIZE = CyyPacket.PACKET_SIZE + 3
  ∧ CyyPacket.PACKET_TOTAL_SIZE = 15
  ∧ byte_to_Z (to_uint8 (byte_sum payload)) = byte_sum payload mod 2 ^ 8
  ∧ trace_of (CyyPacket.encode v out) =
      (Wr <$> seqZ 0 13) ++ (Rd <$> seqZ 1 12) ++ [Wr 13; Wr 14].
Proof.
  intros Hlen payload frame. rewrite encode_ok by exact Hlen.
  repeat split.
  - subst frame payload. rewrite !length_app, !length_vec_to_list. reflexivity.
  - subst payload. rewrite !length_app, !length_vec_to_list. reflexivity.
  - apply to_uint8_value.
Qed.

Lemma encode_frame_layout_example :
  (15 ≤ length (replicate 15 x00))%nat
  ∧ buffer_of (CyyPacket.encode example_packet (replicate 15 x00)) = Some example_frame.
Proof.
  split; [vm_compute; lia|].
  refine (proj1 (encode_frame_layout example_packet (replicate 15 x00) _)).
  vm_compute; lia.
Defined.

(** ** Decoding *)

Lemma decode_cells (st : CyyPacket.CyyPacket) (h a0 a1 a2 a3 b0 b1 b2 b3 c0 c1 c2 c3 : byte)
    (rest : buffer) :
  CyyPacket.decode st (h :: a0 :: a1 :: a2 :: a3 :: b0 :: b1 :: b2 :: b3 :: c0 :: c1 :: c2 :: c3 :: rest) =
    (Rd <$> seqZ 1 12,
     Some (CyyPacket.mkCyyPacket [# a0; a1; a2; a3] [# b0; b1; b2; b3] [# c0; c1; c2; c3],
           h :: a0 :: a1 :: a2 :: a3 :: b0 :: b1 :: b2 :: b3 :: c0 :: c1 :: c2 :: c3 :: rest)).
Proof. reflexivity. Qed.

Lemma decode_ok (st : CyyPacket.CyyPacket) (buf : buffer) :
  (13 ≤ length buf)%nat →
  ∃ v, CyyPacket.decode st buf = (Rd <$> seqZ 1 12, Some (v, buf))
       ∧ CyyPacket_bytes v = payload_region 12 buf.
Proof.
  intros Hlen.
  do 13 (destruct buf as [|? buf]; [simpl in Hlen; lia|]).
  eexists. split; [apply decode_cells|reflexivity].
Qed.

Lemma decode_trace (st : CyyPacket.CyyPacket) (buf : buffer) :
  Forall (λ a, 1 ≤ offset_of a < 13) (CyyPacket.decode st buf).1.
Proof.
  unfold CyyPacket.decode.
  apply bind_trace_Forall.
  { eapply Forall_impl; [apply memcpy_from_trace|]. unfold sizeof_float. simpl. lia. }
  intros v1 m1. apply bind_trace_Forall.
  { eapply Forall_impl; [apply memcpy_from_trace|].
    unfold sizeof_float, sizeof_int32_t. simpl. lia. }
  intros v2 m2. apply bind_trace_Forall.
  { eapply Forall_impl; [apply memcpy_from_trace|].
    unfold sizeof_float, sizeof_int32_t. simpl. lia. }
  intros v3 m3. constructor.
Qed.

(** ** Traces of the validation *)

Lemma send_Verify_loop_trace (n : nat) : ∀ (buf i s : Z) (m : buffer),
  Forall (λ a, buf + i ≤ offset_of a < buf + i + Z.of_nat n)
    (CyyPacket.send_Verify_loop buf n i s m).1.
Proof.
  induction n as [|k IH]; intros buf i s m.
  - constructor.
  - cbn [CyyPacket.send_Verify_loop]. apply bind_trace_Forall.
    + rewrite load_trace. repeat constructor; simpl; lia.
    + intros b m1. eapply Forall_impl; [apply IH|]. simpl. intros a Ha. lia.
Qed.

Lemma send_Verify_trace (base len : Z) (m : buffer) :
  Forall (λ a, base ≤ offset_of a < base + len) (CyyPacket.send_Verify base len m).1.
Proof.
  unfold CyyPacket.send_Verify. apply bind_trace_Forall.
  - eapply Forall_impl; [apply send_Verify_loop_trace|]. simpl. intros a Ha. lia.
  - intros s m1. constructor.
Qed.

(** Whatever length the caller declares and whatever the buffer holds,
    [recive_Verify] touches offsets below [PACKET_TOTAL_SIZE] only. *)
Lemma recive_Verify_trace (len : Z) (buf : buffer) :
  Forall (λ a, 0 ≤ offset_of a < CyyPacket.PACKET_TOTAL_SIZE)
    (CyyPacket.recive_Verify len buf).1.
Proof.
  unfold CyyPacket.recive_Verify, CyyPacket.PACKET_TOTAL_SIZE, CyyPacket.PACKET_SIZE.
  destruct (Z.eqb_spec len (12 + 3)) as [->|_]; cbn [negb]; [|constructor].
  apply bind_trace_Forall; [repeat constructor; simpl; lia|].
  intros b0 m0. destruct (negb _); [constructor|].
  apply bind_trace_Forall; [repeat constructor; simpl; lia|].
  intros b1 m1. destruct (negb _); [constructor|].
  apply bind_trace_Forall; [repeat constructor; simpl; lia|].
  intros b2 m2. apply bind_trace_Forall.
  - eapply Forall_impl; [apply send_Verify_trace|]. simpl. lia.
  - intros c m3. constructor.
Qed.

(** ** Frames in the words of the specification *)

Lemma spec_validate_frame (P : nat) (H F : byte) (payload : list byte) :
  length payload = P → spec_validate P H F (spec_frame H F payload) = None.
Proof.
  intros HP. unfold spec_validate, spec_frame, transmitted_checksum, payload_region.
  rewrite (proj2 (Nat.eqb_eq _ _))
    by (cbn [length]; rewrite length_app; cbn [length]; lia).
  cbn [negb head]. rewrite skipn_cons, drop_0.
  change ((H :: payload ++ [checksum payload; F]) !! S P)
    with ((payload ++ [checksum payload; F]) !! P).
  rewrite bool_decide_eq_true_2 by reflexivity. cbn [negb].
  assert (last (H :: payload ++ [checksum payload; F]) = Some F) as ->.
  { change [checksum payload; F] with ([checksum payload] ++ [F]).
    rewrite app_assoc, app_comm_cons. apply last_snoc. }
  rewrite bool_decide_eq_true_2 by reflexivity. cbn [negb].
  rewrite list_lookup_middle by (symmetry; exact HP).
  rewrite take_app_length' by (symmetry; exact HP).
  rewrite bool_decide_eq_true_2 by reflexivity. reflexivity.
Qed.

Lemma spec_validate_None (P : nat) (H F : byte) (bytes : list byte) :
  spec_validate P H F bytes = None ↔
    length bytes = (P + 3)%nat ∧ head bytes = Some H ∧ last bytes = Some F
    ∧ transmitted_checksum P bytes = Some (checksum (payload_region P bytes)).
Proof.
  unfold spec_validate.
  destruct (Nat.eqb_spec (length bytes) (P + 3)) as [E1|E1]; cbn [negb];
    [|split; [discriminate|tauto]].
  case_bool_decide as E2; cbn [negb]; [|split; [discriminate|tauto]].
  case_bool_decide as E3; cbn [negb]; [|split; [discriminate|tauto]].
  case_bool_decide as E4; cbn [negb]; [|split; [discriminate|tauto]].
  tauto.
Qed.

Lemma CyyPacket_frame_take (v : CyyPacket.CyyPacket) (rest : buffer) :
  take 15 (spec_frame CyyPacket.PACKET_HEADER CyyPacket.PACKET_FOOTER (CyyPacket_bytes v) ++ rest)
  = spec_frame CyyPacket.PACKET_HEADER CyyPacket.PACKET_FOOTER (CyyPacket_bytes v).
Proof.
  destruct v as [a b c].
  inv_vec a; intros a0 a1 a2 a3. inv_vec b; intros b0 b1 b2 b3. inv_vec c; intros c0 c1 c2 c3.
  reflexivity.
Qed.

Lemma CyyPacket_bytes_length (v : CyyPacket.CyyPacket) : length (CyyPacket_bytes v) = 12%nat.
Proof. unfold CyyPacket_bytes. rewrite !length_app, !length_vec_to_list. reflexivity. Qed.

Lemma decode_frame (st v : CyyPacket.CyyPacket) (H F c : byte) :
  CyyPacket.decode st (H :: CyyPacket_bytes v ++ [c; F]) =
    (Rd <$> seqZ 1 12, Some (v, H :: CyyPacket_bytes v ++ [c; F])).
Proof.
  destruct v as [a b d].
  inv_vec a; intros a0 a1 a2 a3. inv_vec b; intros b0 b1 b2 b3. inv_vec d; intros d0 d1 d2 d3.
  reflexivity.
Qed.

(** ** Round trip *)

(** C1. Encoding any payload [v] into a buffer of at least 15 bytes and
    handing the resulting 15-byte frame to the decoder succeeds: the frame
    passes [recive_Verify] (all four checks), and [decode] rebuilds a struct
    whose three object representations are those of [v], whatever the
    struct held before. *)
Theorem CyyPacket_round_trip (v st : CyyPacket.CyyPacket) (out : buffer) :
  (15 ≤ length out)%nat →
  ∃ buf frame,
    buffer_of (CyyPacket.encode v out) = Some buf
    ∧ frame = take 15 buf
    ∧ length frame = 15%nat
    ∧ value_of (CyyPacket.recive_Verify (Z.of_nat (length frame)) frame) = Some 1
    ∧ value_of (CyyPacket.decode st frame) = Some v.
Proof.
  intros Hlen. eexists _, _. rewrite encode_ok by exact Hlen.
  split; [reflexivity|]. split; [reflexivity|].
  cbn [buffer_of fmap option_fmap option_map snd].
  rewrite CyyPacket_frame_take.
  assert (length (spec_frame CyyPacket.PACKET_HEADER CyyPacket.PACKET_FOOTER (CyyPacket_bytes v))
          = 15%nat) as El.
  { unfold spec_frame. cbn [length]. rewrite length_app, CyyPacket_bytes_length. reflexivity. }
  split; [exact El|]. split.
  - rewrite recive_Verify_closed, spec_validate_frame by apply CyyPacket_bytes_length.
    reflexivity.
  - unfold spec_frame. rewrite decode_frame. reflexivity.
Qed.

Lemma CyyPacket_round_trip_example :
  (15 ≤ length (replicate 15 x00))%nat
  ∧ ∃ buf frame,
      buffer_of (CyyPacket.encode example_packet (replicate 15 x00)) = Some buf
      ∧ frame = take 15 buf
      ∧ length frame = 15%nat
      ∧ value_of (CyyPacket.recive_Verify (Z.of_nat (length frame)) frame) = Some 1
      ∧ value_of (CyyPacket.decode zero_packet frame) = Some example_packet.
Proof.
  split; [vm_compute; lia|].
  apply (CyyPacket_round_trip example_packet zero_packet (replicate 15 x00)).
  vm_compute; lia.
Defined.

(** ** Validation order *)

(** C2 (as the code has it). On every input, of either packet type,
    [recive_Verify] checks length, header, footer and checksum in this order
    and returns at the first check that fails: its reads are exactly those
    made up to that check, and the buffer is untouched. What the caller gets
    is 1 for a valid frame and the same 0 for each of the four failures. *)
Theorem recive_Verify_check_order (buf : buffer) :
  CyyPacket.recive_Verify (Z.of_nat (length buf)) buf =
    (reads_until 12 (spec_validate 12 xaa x55 buf),
     Some (verdict_value (spec_validate 12 xaa x55 buf), buf))
  ∧ Dart_aim_Packet_recv.recive_Verify (Z.of_nat (length buf)) buf =
      (reads_until 16 (spec_validate 16 xaa x55 buf),
       Some (verdict_value (spec_validate 16 xaa x55 buf), buf))
  ∧ (∀ e, verdict_value (Some e) = 0)
  ∧ verdict_value None = 1.
Proof.
  split; [apply recive_Verify_closed|].
  split; [apply Dart_recive_Verify_closed|].
  split; [intros e|]; reflexivity.
Qed.

(** The four failure modes, one input each, all answered by the value 0:
    the caller cannot tell which check failed. *)
Lemma recive_Verify_failures_not_distinct :
  spec_validate 12 xaa x55 [] = Some LengthMismatch
  ∧ spec_validate 12 xaa x55 (<[0%nat := x00]> example_frame) = Some BadHeader
  ∧ spec_validate 12 xaa x55 (<[14%nat := x00]> example_frame) = Some BadFooter
  ∧ spec_validate 12 xaa x55 (<[13%nat := x00]> example_frame) = Some ChecksumMismatch
  ∧ value_of (CyyPacket.recive_Verify 0 []) = Some 0
  ∧ value_of (CyyPacket.recive_Verify 15 (<[0%nat := x00]> example_frame)) = Some 0
  ∧ value_of (CyyPacket.recive_Verify 15 (<[14%nat := x00]> example_frame)) = Some 0
  ∧ value_of (CyyPacket.recive_Verify 15 (<[13%nat := x00]> example_frame)) = Some 0.
Proof. repeat split; vm_compute; reflexivity. Qed.

(** ** Decoding and validation *)

Lemma recive_Verify_accepts (buf : buffer) :
  value_of (CyyPacket.recive_Verify (Z.of_nat (length buf)) buf) = Some 1 →
  length buf = 15%nat
  ∧ head buf = Some CyyPacket.PACKET_HEADER
  ∧ last buf = Some CyyPacket.PACKET_FOOTER
  ∧ transmitted_checksum 12 buf = Some (checksum (payload_region 12 buf)).
Proof.
  rewrite recive_Verify_closed. cbn [value_of fmap option_fmap option_map snd fst].
  destruct (spec_validate 12 _ _ buf) as [e|] eqn:E; [discriminate|].
  intros _. apply spec_validate_None in E. exact E.
Qed.

(** C5 (as the code has it). [decode] does no validation of its own: on any
    buffer of at least 13 bytes it rebuilds the struct from the bytes at
    offsets 1..12. Validation is the separate [recive_Verify], which [decode]
    assumes has been called: it returns 1 only when all four checks pass, and
    then [decode] yields exactly the payload region of the valid frame. *)
Theorem decode_after_recive_Verify (buf : buffer) (st : CyyPacket.CyyPacket) :
  ((13 ≤ length buf)%nat →
     ∃ v, CyyPacket.decode st buf = (Rd <$> seqZ 1 12, Some (v, buf))
          ∧ CyyPacket_bytes v = payload_region 12 buf)
  ∧ (value_of (CyyPacket.recive_Verify (Z.of_nat (length buf)) buf) = Some 1 →
       length buf = 15%nat
       ∧ head buf = Some CyyPacket.PACKET_HEADER
       ∧ last buf = Some CyyPacket.PACKET_FOOTER
       ∧ transmitted_checksum 12 buf = Some (checksum (payload_region 12 buf))
       ∧ ∃ v, value_of (CyyPacket.decode st buf) = Some v
              ∧ CyyPacket_bytes v = payload_region 12 buf).
Proof.
  split; [apply decode_ok|].
  intros Hv. destruct (recive_Verify_accepts buf Hv) as (E1 & E2 & E3 & E4).
  repeat (split; [assumption|]).
  destruct (decode_ok st buf) as (v & Hd & Hb); [lia|].
  exists v. rewrite Hd. split; [reflexivity|exact Hb].
Qed.

Lemma decode_after_recive_Verify_example :
  ∃ v, value_of (CyyPacket.decode zero_packet example_frame) = Some v
       ∧ CyyPacket_bytes v = payload_region 12 example_frame.
Proof.
  refine (proj2 (proj2 (proj2 (proj2
    (proj2 (decode_after_recive_Verify example_frame zero_packet) _))))).
  vm_compute. reflexivity.
Defined.

(** A frame whose first payload byte was corrupted in transit: the checksum
    check fails and [recive_Verify] returns 0, yet [decode] hands back a
    struct holding the corrupted byte. *)
Lemma decode_of_rejected_frame :
  spec_validate 12 xaa x55 corrupted_frame = Some ChecksumMismatch
  ∧ value_of (CyyPacket.recive_Verify 15 corrupted_frame) = Some 0
  ∧ value_of (CyyPacket.decode zero_packet corrupted_frame) =
      Some (CyyPacket.mkCyyPacket [# xff; x00; xc0; x3f] [# x2a; x00; x00; x00]
              [# x00; x00; x50; xc0]).
Proof. repeat split; vm_compute; reflexivity. Qed.

(** ** Memory safety *)

Lemma decode_short (st : CyyPacket.CyyPacket) (buf : buffer) :
  (length buf < 13)%nat → value_of (CyyPacket.decode st buf) = None.
Proof.
  intros Hlen.
  do 13 (destruct buf as [|? buf]; [reflexivity|]).
  simpl in Hlen. lia.
Qed.

(** C7 (as the code has it). On every input [recive_Verify] runs to its
    return without an out-of-bounds access, and whatever length is declared
    it touches offsets in [0, PACKET_TOTAL_SIZE) only. [decode] takes no
    length: it reads offsets 1..12, all below [PACKET_TOTAL_SIZE], whatever
    the input, so it stays inside the input exactly when that holds at least
    13 bytes, as every input accepted by [recive_Verify] does. *)
Theorem decode_access_bounds (buf : buffer) (len : Z) (st : CyyPacket.CyyPacket) :
  is_Some (value_of (CyyPacket.recive_Verify (Z.of_nat (length buf)) buf))
  ∧ Forall (λ a, 0 ≤ offset_of a < CyyPacket.PACKET_TOTAL_SIZE)
      (trace_of (CyyPacket.recive_Verify len buf))
  ∧ Forall (λ a, 0 ≤ offset_of a < CyyPacket.PACKET_TOTAL_SIZE)
      (trace_of (CyyPacket.decode st buf))
  ∧ ((13 ≤ length buf)%nat → is_Some (value_of (CyyPacket.decode st buf)))
  ∧ ((length buf < 13)%nat → value_of (CyyPacket.decode st buf) = None)
  ∧ (value_of (CyyPacket.recive_Verify (Z.of_nat (length buf)) buf) = Some 1 →
       is_Some (value_of (CyyPacket.decode st buf))).
Proof.
  split; [rewrite recive_Verify_closed; eexists; reflexivity|].
  split; [apply recive_Verify_trace|].
  split.
  { eapply Forall_impl; [apply decode_trace|].
    unfold CyyPacket.PACKET_TOTAL_SIZE, CyyPacket.PACKET_SIZE. simpl. lia. }
  assert ((13 ≤ length buf)%nat → is_Some (value_of (CyyPacket.decode st buf))) as Hok.
  { intros Hlen. destruct (decode_ok st buf Hlen) as (v & Hv & _).
    rewrite Hv. eexists; reflexivity. }
  split; [exact Hok|]. split; [apply decode_short|].
  intros Hv. apply Hok.
  destruct (recive_Verify_accepts buf Hv) as (El & _). lia.
Qed.

(** [decode] on inputs that are too short: the read of offset 1 of an empty
    sequence, and the read of offset 5 of a 5-byte sequence, fall outside the
    input. *)
Lemma decode_reads_outside_short_input :
  CyyPacket.decode zero_packet [] = ([Rd 1], None)
  ∧ CyyPacket.decode zero_packet [xaa; x00; x00; x00; x00] =
      ([Rd 1; Rd 2; Rd 3; Rd 4; Rd 5], None).
Proof. split; reflexivity. Qed.

(** ** Header and footer sensitivity *)

(** C6 (as the code has it). Take the frame [encode] produces for any
    payload. Replacing its first byte by any value other than 0xAA makes
    [recive_Verify] return 0 at the header check (offset 0 is all it reads),
    and replacing its last byte by any value other than 0x55 makes it return
    0 at the footer check (it reads offsets 0 and 14 only), in both cases
    although the checksum byte still equals the checksum of the payload
    region. The two failures are answered by the same value 0, and [decode],
    which checks nothing, still returns the payload from either altered
    frame. *)
Theorem header_footer_sensitivity (v st : CyyPacket.CyyPacket) (out : buffer) (h f : byte) :
  (15 ≤ length out)%nat →
  h ≠ CyyPacket.PACKET_HEADER →
  f ≠ CyyPacket.PACKET_FOOTER →
  ∃ buf frame,
    buffer_of (CyyPacket.encode v out) = Some buf
    ∧ frame = take 15 buf
    ∧ CyyPacket.recive_Verify (Z.of_nat (length (<[0%nat := h]> frame))) (<[0%nat := h]> frame)
      = ([Rd 0], Some (0, <[0%nat := h]> frame))
    ∧ transmitted_checksum 12 (<[0%nat := h]> frame)
      = Some (checksum (payload_region 12 (<[0%nat := h]> frame)))
    ∧ CyyPacket.recive_Verify (Z.of_nat (length (<[14%nat := f]> frame))) (<[14%nat := f]> frame)
      = ([Rd 0; Rd 14], Some (0, <[14%nat := f]> frame))
    ∧ transmitted_checksum 12 (<[14%nat := f]> frame)
      = Some (checksum (payload_region 12 (<[14%nat := f]> frame)))
    ∧ value_of (CyyPacket.decode st (<[0%nat := h]> frame)) = Some v
    ∧ value_of (CyyPacket.decode st (<[14%nat := f]> frame)) = Some v.
Proof.
  intros Hlen Hh Hf. eexists _, _. rewrite encode_ok by exact Hlen.
  split; [reflexivity|]. split; [reflexivity|].
  cbn [buffer_of fmap option_fmap option_map snd].
  rewrite CyyPacket_frame_take.
  destruct v as [a b c].
  inv_vec a; intros a0 a1 a2 a3. inv_vec b; intros b0 b1 b2 b3. inv_vec c; intros c0 c1 c2 c3.
  set (bad_header := <[0%nat := h]> _). set (bad_footer := <[14%nat := f]> _).
  assert (spec_validate 12 xaa x55 bad_header = Some BadHeader) as Eh.
  { unfold spec_validate. subst bad_header.
    change (head _) with (Some h). rewrite bool_decide_Some.
    rewrite (bool_decide_eq_false_2 _ Hh). reflexivity. }
  assert (spec_validate 12 xaa x55 bad_footer = Some BadFooter) as Ef.
  { unfold spec_validate. subst bad_footer.
    change (head _) with (Some xaa). change (last _) with (Some f).
    rewrite !bool_decide_Some, (bool_decide_eq_false_2 _ Hf). reflexivity. }
  rewrite !recive_Verify_closed. change CyyPacket.PACKET_HEADER with xaa.
  change CyyPacket.PACKET_FOOTER with x55. rewrite Eh, Ef.
  repeat split.
Qed.

Lemma header_footer_sensitivity_example :
  ∃ buf frame,
    buffer_of (CyyPacket.encode example_packet (replicate 15 x00)) = Some buf
    ∧ frame = take 15 buf
    ∧ CyyPacket.recive_Verify (Z.of_nat (length (<[0%nat := x00]> frame))) (<[0%nat := x00]> frame)
      = ([Rd 0], Some (0, <[0%nat := x00]> frame))
    ∧ transmitted_checksum 12 (<[0%nat := x00]> frame)
      = Some (checksum (payload_region 12 (<[0%nat := x00]> frame)))
    ∧ CyyPacket.recive_Verify (Z.of_nat (length (<[14%nat := xff]> frame))) (<[14%nat := xff]> frame)
      = ([Rd 0; Rd 14], Some (0, <[14%nat := xff]> frame))
    ∧ transmitted_checksum 12 (<[14%nat := xff]> frame)
      = Some (checksum (payload_region 12 (<[14%nat := xff]> frame)))
    ∧ value_of (CyyPacket.decode zero_packet (<[0%nat := x00]> frame)) = Some example_packet
    ∧ value_of (CyyPacket.decode zero_packet (<[14%nat := xff]> frame)) = Some example_packet.
Proof.
  apply (header_footer_sensitivity example_packet zero_packet (replicate 15 x00) x00 xff).
  - vm_compute; lia.
  - discriminate.
  - discriminate.
Defined.

(** The example frame with its header, and with its footer, replaced by
    0x00: [recive_Verify] answers both with the same 0, so the caller is told
    neither of a bad header nor of a bad footer, and [decode] fails on neither
    but returns the payload. *)
Lemma altered_header_footer_same_answer :
  value_of (CyyPacket.recive_Verify 15 (<[0%nat := x00]> example_frame)) = Some 0
  ∧ value_of (CyyPacket.recive_Verify 15 (<[14%nat := x00]> example_frame)) = Some 0
  ∧ value_of (CyyPacket.decode zero_packet (<[0%nat := x00]> example_frame))
    = Some example_packet
  ∧ value_of (CyyPacket.decode zero_packet (<[14%nat := x00]> example_frame))
    = Some example_packet.
Proof. repeat split; vm_compute; reflexivity. Qed.

(** ** Decode reads the payload region only *)

(** C8. Two 15-byte buffers that agree at offsets 1..12 decode to the same
    struct, whatever their header, checksum and footer bytes and whatever the
    output structs held before. *)
Theorem decode_payload_region_only (buf1 buf2 : buffer) (st1 st2 : CyyPacket.CyyPacket) :
  length buf1 = 15%nat →
  length buf2 = 15%nat →
  (∀ i : nat, (1 ≤ i ≤ 12)%nat → buf1 !! i = buf2 !! i) →
  ∃ v, value_of (CyyPacket.decode st1 buf1) = Some v
       ∧ value_of (CyyPacket.decode st2 buf2) = Some v.
Proof.
  intros E1 E2 Hagree.
  do 15 (destruct buf1 as [|? buf1]; [discriminate E1|]).
  do 15 (destruct buf2 as [|? buf2]; [discriminate E2|]).
  pose proof (Hagree 1%nat ltac:(lia)) as H1. pose proof (Hagree 2%nat ltac:(lia)) as H2.
  pose proof (Hagree 3%nat ltac:(lia)) as H3. pose proof (Hagree 4%nat ltac:(lia)) as H4.
  pose proof (Hagree 5%nat ltac:(lia)) as H5. pose proof (Hagree 6%nat ltac:(lia)) as H6.
  pose proof (Hagree 7%nat ltac:(lia)) as H7. pose proof (Hagree 8%nat ltac:(lia)) as H8.
  pose proof (Hagree 9%nat ltac:(lia)) as H9. pose proof (Hagree 10%nat ltac:(lia)) as H10.
  pose proof (Hagree 11%nat ltac:(lia)) as H11. pose proof (Hagree 12%nat ltac:(lia)) as H12.
  cbn in H1, H2, H3, H4, H5, H6, H7, H8, H9, H10, H11, H12.
  simplify_eq.
  rewrite !decode_cells. eexists. split; reflexivity.
Qed.

Lemma decode_payload_region_only_example :
  ∃ v, value_of (CyyPacket.decode zero_packet example_frame) = Some v
       ∧ value_of (CyyPacket.decode example_packet
                     (<[0%nat := x00]> (<[13%nat := x00]> (<[14%nat := x00]> example_frame))))
         = Some v.
Proof.
  apply (decode_payload_region_only example_frame
           (<[0%nat := x00]> (<[13%nat := x00]> (<[14%nat := x00]> example_frame)))).
  - reflexivity.
  - reflexivity.
  - intros i Hi.
    do 13 (destruct i as [|i]; [try reflexivity; lia|]). lia.
Defined.

(** ** The three copies of the CyyPacket encoder *)

(** C9. Given structs with the same three object representations, the
    encoders of examples/CyyPacket.c, generated/CyyPacket_header_send.c and
    generated/Cyy_Packet_header_send.cpp behave identically on any output
    buffer, and on a buffer of at least 15 bytes all three leave the same 15
    frame bytes. *)
Theorem encode_copies_agree (a : CyyPacket.CyyPacket)
    (b : CyyPacket_header_send.CyyPacket_header)
    (c : Cyy_Packet_header_send.Cyy_Packet_header) (out : buffer) :
  (15 ≤ length out)%nat →
  CyyPacket_header_send.my b = CyyPacket.my a →
  CyyPacket_header_send.name b = CyyPacket.name a →
  CyyPacket_header_send.target b = CyyPacket.target a →
  Cyy_Packet_header_send.my c = CyyPacket.my a →
  Cyy_Packet_header_send.name c = CyyPacket.name a →
  Cyy_Packet_header_send.target c = CyyPacket.target a →
  ∃ frame,
    length frame = 15%nat
    ∧ buffer_of (CyyPacket.encode a out) = Some (frame ++ drop 15 out)
    ∧ buffer_of (CyyPacket_header_send.encode b out) = Some (frame ++ drop 15 out)
    ∧ buffer_of (Cyy_Packet_header_send.encode c out) = Some (frame ++ drop 15 out)
    ∧ CyyPacket_header_send.encode b out = CyyPacket.encode a out
    ∧ Cyy_Packet_header_send.encode c out = CyyPacket.encode a out.
Proof.
  intros Hlen Hb1 Hb2 Hb3 Hc1 Hc2 Hc3.
  assert (CyyPacket_header_send.encode b out = CyyPacket.encode a out) as Eb.
  { destruct a, b. cbn in Hb1, Hb2, Hb3. subst. reflexivity. }
  assert (Cyy_Packet_header_send.encode c out = CyyPacket.encode a out) as Ec.
  { destruct a, c. cbn in Hc1, Hc2, Hc3. subst. reflexivity. }
  exists (spec_frame CyyPacket.PACKET_HEADER CyyPacket.PACKET_FOOTER (CyyPacket_bytes a)).
  rewrite Eb, Ec, encode_ok by exact Hlen.
  repeat split.
  unfold spec_frame. cbn [length]. rewrite length_app, CyyPacket_bytes_length. reflexivity.
Qed.

Lemma encode_copies_agree_example :
  ∃ frame,
    length frame = 15%nat
    ∧ buffer_of (CyyPacket.encode example_packet (replicate 15 x00))
      = Some (frame ++ drop 15 (replicate 15 x00))
    ∧ buffer_of (CyyPacket_header_send.encode
                   (CyyPacket_header_send.mkCyyPacket_header
                      [# x00; x00; xc0; x3f] [# x2a; x00; x00; x00] [# x00; x00; x50; xc0])
                   (replicate 15 x00))
      = Some (frame ++ drop 15 (replicate 15 x00))
    ∧ buffer_of (Cyy_Packet_header_send.encode
                   (Cyy_Packet_header_send.mkCyy_Packet_header
                      [# x00; x00; xc0; x3f] [# x2a; x00; x00; x00] [# x00; x00; x50; xc0])
                   (replicate 15 x00))
      = Some (frame ++ drop 15 (replicate 15 x00))
    ∧ CyyPacket_header_send.encode
        (CyyPacket_header_send.mkCyyPacket_header
           [# x00; x00; xc0; x3f] [# x2a; x00; x00; x00] [# x00; x00; x50; xc0])
        (replicate 15 x00)
      = CyyPacket.encode example_packet (replicate 15 x00)
    ∧ Cyy_Packet_header_send.encode
        (Cyy_Packet_header_send.mkCyy_Packet_header
           [# x00; x00; xc0; x3f] [# x2a; x00; x00; x00] [# x00; x00; x50; xc0])
        (replicate 15 x00)
      = CyyPacket.encode example_packet (replicate 15 x00).
Proof.
  apply (encode_copies_agree example_packet
           (CyyPacket_header_send.mkCyyPacket_header
              [# x00; x00; xc0; x3f] [# x2a; x00; x00; x00] [# x00; x00; x50; xc0])
           (Cyy_Packet_header_send.mkCyy_Packet_header
              [# x00; x00; xc0; x3f] [# x2a; x00; x00; x00] [# x00; x00; x50; xc0])
           (replicate 15 x00)); [vm_compute; lia | reflexivity ..].
Defined.

(** ** examples/WeaponPacket.c *)

Lemma WeaponPacket_encode_ok (v : WeaponPacket.WeaponPacket) (out : buffer) :
  (20 ≤ length out)%nat →
  WeaponPacket.encode v out =
    (Wr <$> seqZ 0 20, Some (tt, WeaponPacket_bytes v ++ drop 20 out)).
Proof.
  intros Hlen. destruct v as [a f].
  inv_vec a; intros a0 a1 a2 a3 a4 a5 a6 a7 a8 a9 a10 a11 a12 a13 a14 a15.
  inv_vec f; intros f0 f1 f2 f3.
  do 20 (destruct out as [|? out]; [simpl in Hlen; lia|]).
  reflexivity.
Qed.

Lemma WeaponPacket_decode_ok (st : WeaponPacket.WeaponPacket) (buf : buffer) :
  (20 ≤ length buf)%nat →
  ∃ w, WeaponPacket.decode st buf = (Rd <$> seqZ 0 20, Some (w, buf))
       ∧ WeaponPacket_bytes w = take 20 buf.
Proof.
  intros Hlen.
  do 20 (destruct buf as [|? buf]; [simpl in Hlen; lia|]).
  eexists. split; reflexivity.
Qed.

Lemma WeaponPacket_decode_bytes (st v : WeaponPacket.WeaponPacket) (rest : buffer) :
  WeaponPacket.decode st (WeaponPacket_bytes v ++ rest) =
    (Rd <$> seqZ 0 20, Some (v, WeaponPacket_bytes v ++ rest)).
Proof.
  destruct v as [a f].
  inv_vec a; intros a0 a1 a2 a3 a4 a5 a6 a7 a8 a9 a10 a11 a12 a13 a14 a15.
  inv_vec f; intros f0 f1 f2 f3.
  reflexivity.
Qed.

(** C10. The WeaponPacket codec has no framing: on a buffer of at least 20
    bytes [encode] writes offsets 0..19 only, with the 16 bytes of [aim]
    followed by the 4 bytes of [fire] and nothing else; [decode] accepts any
    buffer of at least 20 bytes without a check and reads the struct off its
    first 20 bytes; and decoding what [encode] wrote gives back a struct with
    the field bytes of the original. *)
Theorem WeaponPacket_round_trip (v st : WeaponPacket.WeaponPacket) (out buf : buffer) :
  (20 ≤ length out)%nat →
  (20 ≤ length buf)%nat →
  WeaponPacket.encode v out =
    (Wr <$> seqZ 0 20,
     Some (tt, vec_to_list (WeaponPacket.aim v) ++ vec_to_list (WeaponPacket.fire v)
                 ++ drop 20 out))
  ∧ Z.of_nat (length (vec_to_list (WeaponPacket.aim v) ++ vec_to_list (WeaponPacket.fire v)))
    = WeaponPacket.PACKET_SIZE
  ∧ (∃ w, WeaponPacket.decode st buf = (Rd <$> seqZ 0 20, Some (w, buf))
          ∧ vec_to_list (WeaponPacket.aim w) ++ vec_to_list (WeaponPacket.fire w) = take 20 buf)
  ∧ (∃ enc, buffer_of (WeaponPacket.encode v out) = Some enc
            ∧ value_of (WeaponPacket.decode st enc) = Some v).
Proof.
  intros Hout Hbuf. rewrite WeaponPacket_encode_ok by exact Hout.
  split; [unfold WeaponPacket_bytes; rewrite <- app_assoc; reflexivity|].
  split; [rewrite length_app, !length_vec_to_list; reflexivity|].
  split; [apply WeaponPacket_decode_ok, Hbuf|].
  exists (WeaponPacket_bytes v ++ drop 20 out). split; [reflexivity|].
  rewrite WeaponPacket_decode_bytes. reflexivity.
Qed.

Lemma WeaponPacket_round_trip_example :
  ∃ enc, buffer_of (WeaponPacket.encode example_weapon (replicate 20 x00)) = Some enc
         ∧ value_of (WeaponPacket.decode zero_weapon enc) = Some example_weapon.
Proof.
  refine (proj2 (proj2 (proj2
    (WeaponPacket_round_trip example_weapon zero_weapon (replicate 20 x00) (replicate 20 xff) _ _)))).
  - vm_compute; lia.
  - vm_compute; lia.
Defined.

(** * Further properties of the codecs *)

(** ** send_Verify on a region of a buffer *)

Lemma load_fail (i : Z) (m : buffer) :
  0 ≤ i → m !! Z.to_nat i = None → load i m = ([Rd i], None).
Proof.
  intros Hi E. unfold load. rewrite E.
  destruct (Z.leb_spec 0 i); reflexivity.
Qed.

Lemma bind_fail {A B} (c : M A) (f : A → M B) (m : buffer) (t1 : list access) :
  c m = (t1, None) → (c ≫= f) m = (t1, None).
Proof. intros E. rewrite bind_unfold, E. reflexivity. Qed.

Lemma send_Verify_loop_fault (n : nat) : ∀ (buf i s : Z) (m : buffer),
  0 ≤ buf + i →
  (0 < n)%nat →
  (length m < Z.to_nat (buf + i) + n)%nat →
  (CyyPacket.send_Verify_loop buf n i s m).2 = None.
Proof.
  induction n as [|k IH]; intros buf i s m Hpos Hn Hlen; [lia|].
  cbn [CyyPacket.send_Verify_loop].
  destruct (m !! Z.to_nat (buf + i)) as [b|] eqn:Hb.
  - rewrite (bind_ok _ _ _ _ _ _ (load_ok _ _ _ Hpos Hb)). cbn [snd].
    apply lookup_lt_Some in Hb. apply IH; lia.
  - rewrite (bind_fail _ _ _ _ (load_fail _ _ Hpos Hb)). reflexivity.
Qed.

(** X1. [send_Verify(buf + base, len)] with the whole region inside the
    buffer reads the offsets [base .. base + len - 1] in ascending order,
    leaves the buffer as it was and returns the low 8 bits of the sum of the
    bytes of the region. *)
Theorem send_Verify_region (base len : Z) (m : buffer) :
  0 ≤ base →
  0 ≤ len →
  base + len ≤ Z.of_nat (length m) →
  CyyPacket.send_Verify base len m =
    (Rd <$> seqZ base len,
     Some (to_uint8 (byte_sum (take (Z.to_nat len) (drop (Z.to_nat base) m))), m)).
Proof.
  intros Hb Hl Hin. rewrite send_Verify_ok by lia. reflexivity.
Qed.

Lemma send_Verify_region_example :
  CyyPacket.send_Verify 1 12 example_frame =
    (Rd <$> seqZ 1 12,
     Some (to_uint8 (byte_sum (take (Z.to_nat 12) (drop (Z.to_nat 1) example_frame))),
           example_frame)).
Proof.
  apply (send_Verify_region 1 12 example_frame); vm_compute; discriminate.
Defined.

Lemma send_Verify_loop_overrun (n : nat) : ∀ (buf i s : Z) (m : buffer),
  0 ≤ buf + i →
  (0 < n)%nat →
  (length m < Z.to_nat (buf + i) + n)%nat →
  (CyyPacket.send_Verify_loop buf n i s m).1 =
    Rd <$> seqZ (buf + i) (Z.max (Z.of_nat (length m)) (buf + i) - (buf + i) + 1).
Proof.
  induction n as [|k IH]; intros buf i s m Hpos Hn Hlen; [lia|].
  cbn [CyyPacket.send_Verify_loop].
  destruct (m !! Z.to_nat (buf + i)) as [b|] eqn:Hb.
  - rewrite (bind_ok _ _ _ _ _ _ (load_ok _ _ _ Hpos Hb)). cbn [fst].
    apply lookup_lt_Some in Hb. rewrite IH by lia.
    rewrite (seqZ_cons (buf + i)) by lia.
    replace (Z.succ (buf + i)) with (buf + (i + 1)) by lia.
    cbn [app fmap list_fmap]. do 3 f_equal. lia.
  - rewrite (bind_fail _ _ _ _ (load_fail _ _ Hpos Hb)). cbn [fst].
    apply lookup_ge_None_1 in Hb.
    replace (Z.max (Z.of_nat (length m)) (buf + i) - (buf + i) + 1) with 1 by lia.
    reflexivity.
Qed.

(** X2. [send_Verify] has no bounds check. When the region it is given runs
    past the end of the buffer, it reads the bytes of the region that are
    inside the buffer, in order, and then the first offset of the region that
    is outside the buffer (an out-of-bounds read, at which the trace of the
    model ends). *)
Theorem send_Verify_region_overrun (base len : Z) (m : buffer) :
  0 ≤ base →
  0 < len →
  Z.of_nat (length m) < base + len →
  let first_outside := Z.max (Z.of_nat (length m)) base in
  trace_of (CyyPacket.send_Verify base len m) = Rd <$> seqZ base (first_outside - base + 1)
  ∧ Rd first_outside ∈ trace_of (CyyPacket.send_Verify base len m)
  ∧ base ≤ first_outside < base + len
  ∧ m !! Z.to_nat first_outside = None.
Proof.
  intros Hb Hl Hover first_outside.
  assert (trace_of (CyyPacket.send_Verify base len m)
          = Rd <$> seqZ base (first_outside - base + 1)) as Et.
  { unfold CyyPacket.send_Verify, trace_of. rewrite bind_unfold.
    pose proof (send_Verify_loop_overrun (Z.to_nat len) base 0 0 m) as Ht.
    pose proof (send_Verify_loop_fault (Z.to_nat len) base 0 0 m) as Hf.
    destruct (CyyPacket.send_Verify_loop base (Z.to_nat len) 0 0 m) as [t r].
    cbn [fst snd] in Ht, Hf. rewrite Hf, Ht by lia. cbn [fst].
    rewrite Z.add_0_r. reflexivity. }
  split; [exact Et|]. split; [|split].
  - rewrite Et. apply list_elem_of_fmap. exists first_outside. split; [reflexivity|].
    apply elem_of_seqZ. subst first_outside. lia.
  - subst first_outside. lia.
  - apply lookup_ge_None_2. subst first_outside. lia.
Qed.

Lemma send_Verify_region_overrun_example :
  trace_of (CyyPacket.send_Verify 1 12 [xaa; x01; x02]) = [Rd 1; Rd 2; Rd 3]
  ∧ Rd 3 ∈ trace_of (CyyPacket.send_Verify 1 12 [xaa; x01; x02])
  ∧ 1 ≤ 3 < 1 + 12
  ∧ [xaa; x01; x02] !! Z.to_nat 3 = None.
Proof.
  apply (send_Verify_region_overrun 1 12 [xaa; x01; x02]); vm_compute; congruence.
Defined.

(** X3. With a length that is zero or negative the loop body never runs:
    [send_Verify] returns 0 without touching the buffer, wherever the pointer
    points. *)
Theorem send_Verify_no_iteration (base len : Z) (m : buffer) :
  len ≤ 0 →
  CyyPacket.send_Verify base len m = ([], Some (x00, m)).
Proof.
  intros Hl. unfold CyyPacket.send_Verify.
  replace (Z.to_nat len) with O by lia. reflexivity.
Qed.

Lemma send_Verify_no_iteration_example :
  CyyPacket.send_Verify 100 (-3) [xaa] = ([], Some (x00, [xaa])).
Proof.
  apply (send_Verify_no_iteration 100 (-3) [xaa]). vm_compute; discriminate.
Defined.

(** ** What the additive checksum detects, and what it does not *)

Lemma byte_sum_insert (l : list byte) : ∀ (j : nat) (old b : byte),
  l !! j = Some old →
  byte_sum (<[j := b]> l) = byte_sum l - byte_to_Z old + byte_to_Z b.
Proof.
  induction l as [|x l IH]; intros j old b Hj; [discriminate Hj|].
  destruct j as [|j].
  - injection Hj as ->. cbn [insert list_insert byte_sum foldr]. lia.
  - cbn [insert list_insert byte_sum foldr].
    change (foldr _ 0 (<[j := b]> l)) with (byte_sum (<[j := b]> l)).
    change (foldr _ 0 l) with (byte_sum l).
    rewrite (IH j old b Hj). lia.
Qed.

Lemma checksum_insert_ne (l : list byte) (j : nat) (old b : byte) :
  l !! j = Some old → b ≠ old → checksum (<[j := b]> l) ≠ checksum l.
Proof.
  intros Hj Hne E. apply Hne, byte_to_Z_inj.
  apply (f_equal byte_to_Z) in E. unfold checksum in E.
  rewrite !to_uint8_value, (byte_sum_insert l j old b Hj) in E.
  pose proof (byte_to_Z_range old). pose proof (byte_to_Z_range b).
  revert E. generalize (byte_sum l) (byte_to_Z old) (byte_to_Z b) H H0.
  clear. intros s o n Ho Hn E.
  Z.div_mod_to_equations. lia.
Qed.

Lemma byte_sum_Permutation (l l' : list byte) : l ≡ₚ l' → byte_sum l = byte_sum l'.
Proof.
  unfold byte_sum. induction 1 as [|x l l' _ IH|x y l|l l' l'' _ IH1 _ IH2]; cbn [foldr]; lia.
Qed.

(** A change of one byte of a frame that passes all four checks is caught by
    one of them. *)
Lemma spec_validate_single_byte (P : nat) (H F : byte) (buf : list byte)
    (i : nat) (old b : byte) :
  spec_validate P H F buf = None →
  buf !! i = Some old →
  b ≠ old →
  spec_validate P H F (<[i := b]> buf) ≠ None.
Proof.
  intros Hv Hi Hne Hv'.
  apply spec_validate_None in Hv as (Hl & Hh & Ht & Hc).
  apply spec_validate_None in Hv' as (Hl' & Hh' & Ht' & Hc').
  pose proof (lookup_lt_Some _ _ _ Hi) as Hlt.
  rewrite head_lookup in Hh, Hh'. rewrite last_lookup in Ht, Ht'.
  rewrite length_insert in Ht'. rewrite Hl in Ht, Ht'.
  replace (pred (P + 3)) with (P + 2)%nat in Ht, Ht' by lia.
  unfold transmitted_checksum, payload_region in Hc, Hc'.
  destruct (decide (i = 0%nat)) as [->|Hi0].
  { rewrite list_lookup_insert_eq in Hh' by lia. congruence. }
  destruct (decide (i = (P + 2)%nat)) as [->|Hi2].
  { rewrite list_lookup_insert_eq in Ht' by lia. congruence. }
  destruct (decide (i = S P)) as [->|Hi1].
  { rewrite list_lookup_insert_eq in Hc' by lia.
    rewrite drop_insert_ge, take_insert_ge in Hc' by lia. congruence. }
  rewrite list_lookup_insert_ne in Hc' by lia.
  rewrite drop_insert_ge, take_insert_lt in Hc' by lia.
  rewrite Hc in Hc'. injection Hc' as Hc'.
  refine (checksum_insert_ne _ (i - 1) old b _ Hne (eq_sym Hc')).
  rewrite lookup_take_lt, lookup_drop by lia.
  replace (1 + (i - 1))%nat with i by lia. exact Hi.
Qed.

(** X4. Single-byte error detection. Take any buffer that [recive_Verify]
    accepts and change the byte at any one offset to a different value:
    [recive_Verify] returns 0 on the result. *)
Theorem recive_Verify_single_byte (buf : buffer) (i : nat) (old b : byte) :
  value_of (CyyPacket.recive_Verify (Z.of_nat (length buf)) buf) = Some 1 →
  buf !! i = Some old →
  b ≠ old →
  value_of (CyyPacket.recive_Verify (Z.of_nat (length (<[i := b]> buf))) (<[i := b]> buf))
  = Some 0.
Proof.
  intros Hv Hi Hne.
  rewrite recive_Verify_closed in Hv |- *.
  cbn [value_of fmap option_fmap option_map snd fst] in Hv |- *.
  destruct (spec_validate 12 _ _ buf) as [e|] eqn:E; [discriminate Hv|].
  pose proof (spec_validate_single_byte _ _ _ _ i old b E Hi Hne) as Hbad.
  destruct (spec_validate 12 _ _ (<[i := b]> buf)) as [e|]; [reflexivity|].
  contradiction Hbad. reflexivity.
Qed.

Lemma recive_Verify_single_byte_example :
  value_of (CyyPacket.recive_Verify
              (Z.of_nat (length (<[7%nat := x01]> example_frame)))
              (<[7%nat := x01]> example_frame))
  = Some 0.
Proof.
  apply (recive_Verify_single_byte example_frame 7 x00 x01).
  - vm_compute. reflexivity.
  - reflexivity.
  - discriminate.
Defined.

(** X5. The same for the 19-byte frames of the Dart_aim packet: any
    single-byte change of an accepted buffer is rejected. *)
Theorem Dart_recive_Verify_single_byte (buf : buffer) (i : nat) (old b : byte) :
  value_of (Dart_aim_Packet_recv.recive_Verify (Z.of_nat (length buf)) buf) = Some 1 →
  buf !! i = Some old →
  b ≠ old →
  value_of (Dart_aim_Packet_recv.recive_Verify
              (Z.of_nat (length (<[i := b]> buf))) (<[i := b]> buf))
  = Some 0.
Proof.
  intros Hv Hi Hne.
  rewrite Dart_recive_Verify_closed in Hv |- *.
  cbn [value_of fmap option_fmap option_map snd fst] in Hv |- *.
  destruct (spec_validate 16 _ _ buf) as [e|] eqn:E; [discriminate Hv|].
  pose proof (spec_validate_single_byte _ _ _ _ i old b E Hi Hne) as Hbad.
  destruct (spec_validate 16 _ _ (<[i := b]> buf)) as [e|]; [reflexivity|].
  contradiction Hbad. reflexivity.
Qed.

Lemma Dart_recive_Verify_single_byte_example :
  value_of (Dart_aim_Packet_recv.recive_Verify
              (Z.of_nat (length (<[17%nat := x01]> (xaa :: replicate 17 x00 ++ [x55]))))
              (<[17%nat := x01]> (xaa :: replicate 17 x00 ++ [x55])))
  = Some 0.
Proof.
  apply (Dart_recive_Verify_single_byte (xaa :: replicate 17 x00 ++ [x55]) 17 x00 x01).
  - vm_compute. reflexivity.
  - reflexivity.
  - discriminate.
Defined.

(** X6. Reordering is not detected. Two buffers of the same length with the
    same header, checksum and footer bytes whose payload regions hold the same
    bytes in a different order get the same answer from [recive_Verify]. *)
Theorem recive_Verify_payload_order (buf buf' : buffer) :
  length buf = length buf' →
  head buf = head buf' →
  last buf = last buf' →
  transmitted_checksum 12 buf = transmitted_checksum 12 buf' →
  payload_region 12 buf ≡ₚ payload_region 12 buf' →
  value_of (CyyPacket.recive_Verify (Z.of_nat (length buf)) buf)
  = value_of (CyyPacket.recive_Verify (Z.of_nat (length buf')) buf').
Proof.
  intros Hl Hh Ht Hc Hp. rewrite !recive_Verify_closed.
  cbn [value_of fmap option_fmap option_map snd fst].
  do 2 f_equal. unfold spec_validate, checksum.
  rewrite Hl, Hh, Ht, Hc, (byte_sum_Permutation _ _ Hp). reflexivity.
Qed.

(** The example frame with the first bytes of [my] and [name] exchanged. *)
Lemma recive_Verify_payload_order_example :
  value_of (CyyPacket.recive_Verify (Z.of_nat (length example_frame)) example_frame)
  = value_of
      (CyyPacket.recive_Verify
         (Z.of_nat (length (<[1%nat := x2a]> (<[5%nat := x00]> example_frame))))
         (<[1%nat := x2a]> (<[5%nat := x00]> example_frame))).
Proof.
  apply (recive_Verify_payload_order example_frame
           (<[1%nat := x2a]> (<[5%nat := x00]> example_frame))); try reflexivity.
  apply (bool_decide_unpack _). vm_compute. exact I.
Defined.

(** ** recive_Verify and the declared length *)

Lemma recive_Verify_prefix (buf : buffer) :
  (15 ≤ length buf)%nat →
  CyyPacket.recive_Verify 15 buf =
    (reads_until 12 (spec_validate 12 xaa x55 (take 15 buf)),
     Some (verdict_value (spec_validate 12 xaa x55 (take 15 buf)), buf)).
Proof.
  intros Hlen.
  do 15 (destruct buf as [|? buf]; [simpl in Hlen; lia|]). clear Hlen.
  change xaa with CyyPacket.PACKET_HEADER. change x55 with CyyPacket.PACKET_FOOTER.
  unfold CyyPacket.recive_Verify, spec_validate.
  cbn [take]. rewrite !take_0.
  cbn [length head last transmitted_checksum payload_region take drop lookup list_lookup].
  rewrite !bool_decide_Some.
  change (15 =? CyyPacket.PACKET_TOTAL_SIZE) with true.
  change (15 =? 12 + 3)%nat with true. cbn [negb].
  step_load. byte_cases; [|reflexivity].
  step_load. byte_cases; [|reflexivity].
  step_load.
  erewrite bind_ok
    by (apply send_Verify_ok; unfold CyyPacket.PACKET_SIZE; cbn [length]; lia).
  cbn [fst snd].
  change (take _ (drop _ _)) with [b0; b1; b2; b3; b4; b5; b6; b7; b8; b9; b10; b11].
  rewrite byte_eqb_decide, (bool_decide_ext _ _ (symmetry_iff (=) _ _)).
  case_bool_decide; reflexivity.
Qed.

(** X7. [recive_Verify] trusts the length it is given. With the declared
    length 15 and a buffer that holds at least 15 bytes, only the first 15
    bytes count: the answer and the reads are those for the 15-byte prefix
    taken alone, and whatever follows is neither read nor changed. *)
Theorem recive_Verify_longer_buffer (buf : buffer) :
  (15 ≤ length buf)%nat →
  trace_of (CyyPacket.recive_Verify 15 buf)
  = trace_of (CyyPacket.recive_Verify (Z.of_nat (length (take 15 buf))) (take 15 buf))
  ∧ value_of (CyyPacket.recive_Verify 15 buf)
    = value_of (CyyPacket.recive_Verify (Z.of_nat (length (take 15 buf))) (take 15 buf))
  ∧ buffer_of (CyyPacket.recive_Verify 15 buf) = Some buf
  ∧ Forall (λ a, 0 ≤ offset_of a < 15) (trace_of (CyyPacket.recive_Verify 15 buf)).
Proof.
  intros Hlen. rewrite recive_Verify_prefix by exact Hlen.
  rewrite recive_Verify_closed.
  repeat split.
  destruct (spec_validate 12 xaa x55 (take 15 buf)) as [[]|];
    cbn; repeat constructor; cbn; lia.
Qed.

Lemma recive_Verify_longer_buffer_example :
  value_of (CyyPacket.recive_Verify 15 (example_frame ++ [xff; xff; xff]))
  = value_of (CyyPacket.recive_Verify
                (Z.of_nat (length (take 15 (example_frame ++ [xff; xff; xff]))))
                (take 15 (example_frame ++ [xff; xff; xff]))).
Proof.
  refine (proj1 (proj2 (recive_Verify_longer_buffer (example_frame ++ [xff; xff; xff]) _))).
  vm_compute; lia.
Defined.

(** X8. [recive_Verify] trusts the declared length. A declared length other
    than 15 is rejected without a read. With the declared length 15 on a
    buffer that holds fewer than 15 bytes, the only check that can still
    reject without leaving the buffer is the header check: if the first byte
    is not 0xAA the answer is 0 after reading offset 0; if it is 0xAA, the
    next access is the read of offset 14, which lies outside the buffer; and
    on an empty buffer already the read of offset 0 does. *)
Theorem recive_Verify_overstated_length (len : Z) (buf : buffer) :
  (length buf < 15)%nat →
  (len ≠ 15 → CyyPacket.recive_Verify len buf = ([], Some (0, buf)))
  ∧ (buf = [] → trace_of (CyyPacket.recive_Verify 15 buf) = [Rd 0])
  ∧ (∀ b, head buf = Some b → b ≠ CyyPacket.PACKET_HEADER →
       CyyPacket.recive_Verify 15 buf = ([Rd 0], Some (0, buf)))
  ∧ (head buf = Some CyyPacket.PACKET_HEADER →
       trace_of (CyyPacket.recive_Verify 15 buf) = [Rd 0; Rd 14]
       ∧ buf !! 14%nat = None).
Proof.
  intros Hlen. split; [|split; [|split]].
  - intros Hne. unfold CyyPacket.recive_Verify.
    destruct (Z.eqb_spec len CyyPacket.PACKET_TOTAL_SIZE) as [E|_]; [|reflexivity].
    unfold CyyPacket.PACKET_TOTAL_SIZE, CyyPacket.PACKET_SIZE in E. lia.
  - intros ->. reflexivity.
  - intros b Hb Hne. destruct buf as [|b0 buf]; [discriminate Hb|].
    injection Hb as ->.
    unfold CyyPacket.recive_Verify.
    change (15 =? CyyPacket.PACKET_TOTAL_SIZE) with true. cbn [negb].
    rewrite (bind_ok _ _ _ _ _ _ (load_ok 0 (b :: buf) b ltac:(lia) eq_refl)). cbn beta.
    rewrite byte_eqb_decide, (bool_decide_eq_false_2 _ Hne). reflexivity.
  - intros Hb. destruct buf as [|b0 buf]; [discriminate Hb|].
    injection Hb as ->.
    assert ((CyyPacket.PACKET_HEADER :: buf) !! 14%nat = None) as Hnone
      by (apply lookup_ge_None_2; simpl in *; lia).
    split; [|exact Hnone].
    unfold CyyPacket.recive_Verify.
    change (15 =? CyyPacket.PACKET_TOTAL_SIZE) with true. cbn [negb].
    rewrite (bind_ok _ _ _ _ _ _
               (load_ok 0 (CyyPacket.PACKET_HEADER :: buf) _ ltac:(lia) eq_refl)).
    cbn beta. rewrite Z.eqb_refl. cbn [negb].
    rewrite (bind_fail _ _ _ _
               (load_fail (15 - 1) (CyyPacket.PACKET_HEADER :: buf) ltac:(lia) Hnone)).
    reflexivity.
Qed.

Lemma recive_Verify_overstated_length_example :
  (7 ≠ 15 → CyyPacket.recive_Verify 7 (take 14 example_frame)
            = ([], Some (0, take 14 example_frame)))
  ∧ (take 14 example_frame = [] →
       trace_of (CyyPacket.recive_Verify 15 (take 14 example_frame)) = [Rd 0])
  ∧ (∀ b, head (take 14 example_frame) = Some b → b ≠ CyyPacket.PACKET_HEADER →
       CyyPacket.recive_Verify 15 (take 14 example_frame)
       = ([Rd 0], Some (0, take 14 example_frame)))
  ∧ (head (take 14 example_frame) = Some CyyPacket.PACKET_HEADER →
       trace_of (CyyPacket.recive_Verify 15 (take 14 example_frame)) = [Rd 0; Rd 14]
       ∧ take 14 example_frame !! 14%nat = None).
Proof.
  apply (recive_Verify_overstated_length 7 (take 14 example_frame)).
  vm_compute; lia.
Defined.

(** ** encode and the size of the output buffer *)

(** X9. [encode] does not know the size of the buffer it writes to: on any
    buffer of fewer than 15 bytes it writes past the end. *)
Theorem encode_short_buffer (v : CyyPacket.CyyPacket) (out : buffer) :
  (length out < 15)%nat →
  value_of (CyyPacket.encode v out) = None.
Proof.
  intros Hlen. destruct v as [a b c].
  inv_vec a; intros a0 a1 a2 a3. inv_vec b; intros b0 b1 b2 b3. inv_vec c; intros c0 c1 c2 c3.
  do 15 (destruct out as [|? out]; [reflexivity|]).
  simpl in Hlen. lia.
Qed.

Lemma encode_short_buffer_example :
  value_of (CyyPacket.encode example_packet (replicate 14 x00)) = None.
Proof.
  apply (encode_short_buffer example_packet (replicate 14 x00)).
  vm_compute; lia.
Defined.

(** ** Frames and payloads correspond one to one *)

(** X10. Every buffer that [recive_Verify] accepts is the encoding of the
    struct [decode] reads from it: encoding that struct again gives back
    the same 15 bytes. *)
Theorem encode_decode_accepted (buf out : buffer) (st : CyyPacket.CyyPacket) :
  value_of (CyyPacket.recive_Verify (Z.of_nat (length buf)) buf) = Some 1 →
  (15 ≤ length out)%nat →
  ∃ v, value_of (CyyPacket.decode st buf) = Some v
       ∧ buffer_of (CyyPacket.encode v out) = Some (buf ++ drop 15 out).
Proof.
  intros Hv Hout. destruct (recive_Verify_accepts buf Hv) as (E1 & E2 & E3 & E4).
  do 15 (destruct buf as [|? buf]; [discriminate E1|]).
  destruct buf; [clear E1|discriminate E1].
  cbn in E2, E3, E4. simplify_eq.
  rewrite decode_cells. eexists. split; [reflexivity|].
  rewrite encode_ok by exact Hout. reflexivity.
Qed.

Lemma encode_decode_accepted_example :
  ∃ v, value_of (CyyPacket.decode zero_packet example_frame) = Some v
       ∧ buffer_of (CyyPacket.encode v (replicate 15 xff))
         = Some (example_frame ++ drop 15 (replicate 15 xff)).
Proof.
  apply (encode_decode_accepted example_frame (replicate 15 xff) zero_packet).
  - vm_compute. reflexivity.
  - vm_compute; lia.
Defined.

(** X11. Different payloads never share a frame: encodings of two structs
    that differ in some field byte differ within their 15 frame bytes. *)
Theorem encode_injective (v1 v2 : CyyPacket.CyyPacket) (out1 out2 buf1 buf2 : buffer) :
  (15 ≤ length out1)%nat →
  (15 ≤ length out2)%nat →
  buffer_of (CyyPacket.encode v1 out1) = Some buf1 →
  buffer_of (CyyPacket.encode v2 out2) = Some buf2 →
  v1 ≠ v2 →
  take 15 buf1 ≠ take 15 buf2.
Proof.
  intros H1 H2 E1 E2 Hne Eq. apply Hne.
  rewrite encode_ok in E1 by exact H1. rewrite encode_ok in E2 by exact H2.
  cbn [buffer_of fmap option_fmap option_map snd] in E1, E2.
  injection E1 as <-. injection E2 as <-.
  pose proof (CyyPacket_frame_take v1 (drop 15 out1)) as T1.
  pose proof (CyyPacket_frame_take v2 (drop 15 out2)) as T2.
  unfold spec_frame in T1, T2. cbn [app] in T1, T2, Eq.
  rewrite T1, T2 in Eq. clear T1 T2.
  apply (f_equal (λ f, value_of (CyyPacket.decode v1 f))) in Eq.
  rewrite !decode_frame in Eq.
  cbn [value_of fmap option_fmap option_map snd fst] in Eq. congruence.
Qed.

Lemma encode_injective_example :
  take 15 example_frame
  ≠ take 15 [xaa; x00; x00; x00; x00; x00; x00; x00; x00; x00; x00; x00; x00; x00; x55; xff].
Proof.
  apply (encode_injective example_packet zero_packet (replicate 15 x00) (replicate 16 xff)).
  - vm_compute; lia.
  - vm_compute; lia.
  - vm_compute. reflexivity.
  - vm_compute. reflexivity.
  - discriminate.
Defined.

(** ** generated/Dart_aim_Packet_recv.c: encode and decode *)

Lemma Dart_encode_ok (v : Dart_aim_Packet_recv.Dart_aim_Packet) (out : buffer) :
  (19 ≤ length out)%nat →
  Dart_aim_Packet_recv.encode v out =
    ((Wr <$> seqZ 0 17) ++ (Rd <$> seqZ 1 16) ++ [Wr 17; Wr 18],
     Some (tt, spec_frame Dart_aim_Packet_recv.PACKET_HEADER Dart_aim_Packet_recv.PACKET_FOOTER
                 (Dart_aim_Packet_bytes v) ++ drop 19 out)).
Proof.
  intros Hlen. destruct v as [a b c d].
  inv_vec a; intros a0 a1 a2 a3. inv_vec b; intros b0 b1 b2 b3.
  inv_vec c; intros c0 c1 c2 c3. inv_vec d; intros d0 d1 d2 d3.
  do 19 (destruct out as [|? out]; [simpl in Hlen; lia|]).
  unfold Dart_aim_Packet_recv.encode.
  change Dart_aim_Packet_recv.send_Verify with CyyPacket.send_Verify.
  lazy -[CyyPacket.send_Verify checksum to_uint8 byte_to_Z].
  rewrite send_Verify_ok by (cbn [length]; lia).
  reflexivity.
Qed.

Lemma Dart_decode_frame (st v : Dart_aim_Packet_recv.Dart_aim_Packet) (H F c : byte)
    (rest : buffer) :
  Dart_aim_Packet_recv.decode st (H :: Dart_aim_Packet_bytes v ++ [c; F] ++ rest) =
    (Rd <$> seqZ 1 16, Some (v, H :: Dart_aim_Packet_bytes v ++ [c; F] ++ rest)).
Proof.
  destruct v as [a b e d].
  inv_vec a; intros a0 a1 a2 a3. inv_vec b; intros b0 b1 b2 b3.
  inv_vec e; intros e0 e1 e2 e3. inv_vec d; intros d0 d1 d2 d3.
  reflexivity.
Qed.

Lemma Dart_aim_Packet_bytes_length (v : Dart_aim_Packet_recv.Dart_aim_Packet) :
  length (Dart_aim_Packet_bytes v) = 16%nat.
Proof. unfold Dart_aim_Packet_bytes. rewrite !length_app, !length_vec_to_list. reflexivity. Qed.

(** X12. Round trip of the Dart_aim packet. On any output buffer of at least
    19 bytes [encode] leaves the header 0xAA, the 16 bytes of the four floats
    in declaration order, their checksum and the footer 0x55; these 19 bytes
    pass [recive_Verify], and [decode] rebuilds the four fields from them. *)
Theorem Dart_round_trip (v st : Dart_aim_Packet_recv.Dart_aim_Packet) (out : buffer) :
  (19 ≤ length out)%nat →
  let payload :=
    vec_to_list (Dart_aim_Packet_recv.err_of_pix v) ++ vec_to_list (Dart_aim_Packet_recv.keep_1 v)
      ++ vec_to_list (Dart_aim_Packet_recv.keep_2 v)
      ++ vec_to_list (Dart_aim_Packet_recv.keep_3 v) in
  let frame := [xaa] ++ payload ++ [to_uint8 (byte_sum payload)] ++ [x55] in
  buffer_of (Dart_aim_Packet_recv.encode v out) = Some (frame ++ drop 19 out)
  ∧ length frame = 19%nat
  ∧ value_of (Dart_aim_Packet_recv.recive_Verify (Z.of_nat (length frame)) frame) = Some 1
  ∧ value_of (Dart_aim_Packet_recv.decode st frame) = Some v.
Proof.
  intros Hlen payload frame.
  assert (frame = spec_frame xaa x55 (Dart_aim_Packet_bytes v)) as -> by reflexivity.
  rewrite Dart_encode_ok by exact Hlen.
  split; [reflexivity|]. split.
  { unfold spec_frame. cbn [length]. rewrite length_app, Dart_aim_Packet_bytes_length.
    reflexivity. }
  split.
  - rewrite Dart_recive_Verify_closed.
    change Dart_aim_Packet_recv.PACKET_HEADER with xaa.
    change Dart_aim_Packet_recv.PACKET_FOOTER with x55.
    rewrite spec_validate_frame by apply Dart_aim_Packet_bytes_length. reflexivity.
  - unfold spec_frame.
    rewrite <- (app_nil_r [checksum (Dart_aim_Packet_bytes v); x55]).
    rewrite Dart_decode_frame. reflexivity.
Qed.

Lemma Dart_round_trip_example :
  value_of (Dart_aim_Packet_recv.decode zero_dart
              [xaa; x00; x00; xc0; x3f; x00; x00; x00; x00; x00; x00; x80; x3f;
               x00; x00; x50; xc0; xce; x55])
  = Some example_dart.
Proof.
  refine (proj2 (proj2 (proj2 (Dart_round_trip example_dart zero_dart (replicate 19 x00) _)))).
  vm_compute; lia.
Defined.

(** X13. [decode] of the Dart_aim packet checks nothing, not even a length:
    it reads the offsets 1..16. On any buffer of at least 17 bytes it returns
    the struct made of these bytes and leaves the buffer alone; on a shorter
    buffer it reads past the end. *)
Theorem Dart_decode_unchecked (st : Dart_aim_Packet_recv.Dart_aim_Packet) (buf : buffer) :
  ((17 ≤ length buf)%nat →
     ∃ v, Dart_aim_Packet_recv.decode st buf = (Rd <$> seqZ 1 16, Some (v, buf))
          ∧ Dart_aim_Packet_bytes v = take 16 (drop 1 buf))
  ∧ ((length buf < 17)%nat → value_of (Dart_aim_Packet_recv.decode st buf) = None).
Proof.
  split; intros Hlen.
  - do 17 (destruct buf as [|? buf]; [simpl in Hlen; lia|]).
    eexists. split; reflexivity.
  - do 17 (destruct buf as [|? buf]; [reflexivity|]).
    simpl in Hlen. lia.
Qed.

(** ** generated/Cyy_Packet_header_send.cpp: recive_Verify and decode *)

Lemma cpp_decode_cells (st : Cyy_Packet_header_send.Cyy_Packet_header)
    (h a0 a1 a2 a3 b0 b1 b2 b3 c0 c1 c2 c3 : byte) (rest : buffer) :
  Cyy_Packet_header_send.decode st
    (h :: a0 :: a1 :: a2 :: a3 :: b0 :: b1 :: b2 :: b3 :: c0 :: c1 :: c2 :: c3 :: rest) =
    (Rd <$> seqZ 1 12,
     Some (Cyy_Packet_header_send.mkCyy_Packet_header
             [# a0; a1; a2; a3] [# b0; b1; b2; b3] [# c0; c1; c2; c3],
           h :: a0 :: a1 :: a2 :: a3 :: b0 :: b1 :: b2 :: b3 :: c0 :: c1 :: c2 :: c3 :: rest)).
Proof. reflexivity. Qed.

(** X14. The validator and the decoder of the .cpp copy behave as those of
    examples/CyyPacket.c on every input: [recive_Verify] (written there with
    [PACKET_SIZE + 3] for the total size) gives the same answer, reads and
    faults for every declared length and buffer, and [decode] makes the same
    reads and yields the same field bytes, or faults on the same inputs. *)
Theorem cpp_copy_agrees (len : Z) (buf : buffer)
    (sc : Cyy_Packet_header_send.Cyy_Packet_header) (sa : CyyPacket.CyyPacket) :
  Cyy_Packet_header_send.recive_Verify len buf = CyyPacket.recive_Verify len buf
  ∧ trace_of (Cyy_Packet_header_send.decode sc buf) = trace_of (CyyPacket.decode sa buf)
  ∧ Cyy_Packet_header_bytes <$> value_of (Cyy_Packet_header_send.decode sc buf)
    = CyyPacket_bytes <$> value_of (CyyPacket.decode sa buf).
Proof.
  split; [reflexivity|].
  destruct (le_lt_dec 13 (length buf)) as [Hlen|Hlen].
  - do 13 (destruct buf as [|? buf]; [simpl in Hlen; lia|]).
    rewrite cpp_decode_cells, decode_cells. split; reflexivity.
  - do 13 (destruct buf as [|? buf]; [split; reflexivity|]).
    simpl in Hlen. lia.
Qed.

Lemma cpp_encode_ok (v : Cyy_Packet_header_send.Cyy_Packet_header) (out : buffer) :
  (15 ≤ length out)%nat →
  Cyy_Packet_header_send.encode v out =
    ((Wr <$> seqZ 0 13) ++ (Rd <$> seqZ 1 12) ++ [Wr 13; Wr 14],
     Some (tt, spec_frame xaa x55 (Cyy_Packet_header_bytes v) ++ drop 15 out)).
Proof.
  intros Hlen. destruct v as [a b c].
  exact (encode_ok (CyyPacket.mkCyyPacket a b c) out Hlen).
Qed.

Lemma Cyy_Packet_header_bytes_length (v : Cyy_Packet_header_send.Cyy_Packet_header) :
  length (Cyy_Packet_header_bytes v) = 12%nat.
Proof. unfold Cyy_Packet_header_bytes. rewrite !length_app, !length_vec_to_list. reflexivity. Qed.

(** X15. Round trip of the .cpp codec: the frame [encode] writes into a
    buffer of at least 15 bytes passes its [recive_Verify], and its [decode]
    rebuilds the struct that was encoded. *)
Theorem cpp_round_trip (v st : Cyy_Packet_header_send.Cyy_Packet_header) (out : buffer) :
  (15 ≤ length out)%nat →
  ∃ buf frame,
    buffer_of (Cyy_Packet_header_send.encode v out) = Some buf
    ∧ frame = take 15 buf
    ∧ length frame = 15%nat
    ∧ value_of (Cyy_Packet_header_send.recive_Verify (Z.of_nat (length frame)) frame) = Some 1
    ∧ value_of (Cyy_Packet_header_send.decode st frame) = Some v.
Proof.
  intros Hlen. eexists _, _. rewrite cpp_encode_ok by exact Hlen.
  split; [reflexivity|]. split; [reflexivity|].
  cbn [buffer_of fmap option_fmap option_map snd].
  assert (take 15 (spec_frame xaa x55 (Cyy_Packet_header_bytes v) ++ drop 15 out)
          = spec_frame xaa x55 (Cyy_Packet_header_bytes v)) as ->.
  { apply take_app_length'. unfold spec_frame. cbn [length].
    rewrite length_app, Cyy_Packet_header_bytes_length. reflexivity. }
  assert (length (spec_frame xaa x55 (Cyy_Packet_header_bytes v)) = 15%nat) as El.
  { unfold spec_frame. cbn [length].
    rewrite length_app, Cyy_Packet_header_bytes_length. reflexivity. }
  split; [exact El|]. split.
  - change (Cyy_Packet_header_send.recive_Verify ?l ?b) with (CyyPacket.recive_Verify l b).
    rewrite recive_Verify_closed.
    change CyyPacket.PACKET_HEADER with xaa. change CyyPacket.PACKET_FOOTER with x55.
    rewrite spec_validate_frame by apply Cyy_Packet_header_bytes_length. reflexivity.
  - destruct v as [a b c].
    inv_vec a; intros a0 a1 a2 a3. inv_vec b; intros b0 b1 b2 b3.
    inv_vec c; intros c0 c1 c2 c3.
    reflexivity.
Qed.

Lemma cpp_round_trip_example :
  ∃ buf frame,
    buffer_of (Cyy_Packet_header_send.encode example_cpp_packet (replicate 15 x00)) = Some buf
    ∧ frame = take 15 buf
    ∧ length frame = 15%nat
    ∧ value_of (Cyy_Packet_header_send.recive_Verify (Z.of_nat (length frame)) frame) = Some 1
    ∧ value_of (Cyy_Packet_header_send.decode zero_cpp_packet frame) = Some example_cpp_packet.
Proof.
  apply (cpp_round_trip example_cpp_packet zero_cpp_packet (replicate 15 x00)).
  vm_compute; lia.
Defined.

(** ** examples/WeaponPacket.c: buffers and the reverse round trip *)

(** X16. The WeaponPacket codec loses nothing in the other direction either:
    the struct [decode] reads from a buffer of at least 20 bytes encodes to
    the first 20 bytes of that buffer, so encoding it back in place leaves
    the buffer as it was. *)
Theorem WeaponPacket_encode_decode (st : WeaponPacket.WeaponPacket) (buf out : buffer) :
  (20 ≤ length buf)%nat →
  (20 ≤ length out)%nat →
  ∃ w, value_of (WeaponPacket.decode st buf) = Some w
       ∧ buffer_of (WeaponPacket.encode w out) = Some (take 20 buf ++ drop 20 out)
       ∧ buffer_of (WeaponPacket.encode w buf) = Some buf.
Proof.
  intros Hbuf Hout.
  destruct (WeaponPacket_decode_ok st buf Hbuf) as (w & Hw & Hb).
  exists w. rewrite Hw, !WeaponPacket_encode_ok by assumption. rewrite Hb.
  split; [reflexivity|]. split; [reflexivity|].
  cbn [buffer_of fmap option_fmap option_map snd]. rewrite take_drop. reflexivity.
Qed.

Lemma WeaponPacket_encode_decode_example :
  ∃ w, value_of (WeaponPacket.decode zero_weapon (replicate 21 x07)) = Some w
       ∧ buffer_of (WeaponPacket.encode w (replicate 20 x00))
         = Some (take 20 (replicate 21 x07) ++ drop 20 (replicate 20 x00))
       ∧ buffer_of (WeaponPacket.encode w (replicate 21 x07)) = Some (replicate 21 x07).
Proof.
  apply (WeaponPacket_encode_decode zero_weapon (replicate 21 x07) (replicate 20 x00)).
  - vm_compute; lia.
  - vm_compute; lia.
Defined.

(** X17. Neither function of the WeaponPacket codec knows the size of its
    buffer: on any buffer of fewer than 20 bytes [encode] writes, and
    [decode] reads, past the end. *)
Theorem WeaponPacket_short_buffer (v st : WeaponPacket.WeaponPacket) (buf : buffer) :
  (length buf < 20)%nat →
  value_of (WeaponPacket.encode v buf) = None
  ∧ value_of (WeaponPacket.decode st buf) = None.
Proof.
  intros Hlen. destruct v as [a f].
  inv_vec a; intros a0 a1 a2 a3 a4 a5 a6 a7 a8 a9 a10 a11 a12 a13 a14 a15.
  inv_vec f; intros f0 f1 f2 f3.
  do 20 (destruct buf as [|? buf]; [split; reflexivity|]).
  simpl in Hlen. lia.
Qed.

Lemma WeaponPacket_short_buffer_example :
  value_of (WeaponPacket.encode example_weapon (replicate 19 x00)) = None
  ∧ value_of (WeaponPacket.decode zero_weapon (replicate 19 x00)) = None.
Proof.
  apply (WeaponPacket_short_buffer example_weapon zero_weapon (replicate 19 x00)).
  vm_compute; lia.
Defined.
